(** * Crypto dashboard: the Groq chat client and the chat endpoint

    A shallow embedding of [lib/groq.ts] (the transport client
    [createGroqChatCompletion] and the orchestrator [generateGroqResponse])
    and of [app/api/chat/route.ts] (the inbound [POST] handler), with the
    properties of the retry policy, the error taxonomy and the output
    sanitisation stated over it.

    Conventions of the embedding:
    - a JavaScript string is the list of its UTF-16 code units;
    - integer-valued JavaScript numbers (HTTP statuses, attempt counters,
      milliseconds) are in [Z];
    - a promise that rejects and a [throw] are the [Throw] outcome of the
      monad [M]; the network and the timer are an oracle of the environment,
      and every call of [fetch] and of [sleep] is recorded in a log. *)

From Stdlib Require Import ZArith NArith List String Ascii Bool Lia DecimalString.
From Equations Require Import Equations.
Import ListNotations.
Set Warnings "-register-all".
Local Open Scope Z_scope.

(** ** JavaScript strings *)

Module JsString.

Definition t : Type := list N.

(** An ASCII literal of the source. *)
Definition lit (s : string) : t := map N_of_ascii (list_ascii_of_string s).

(** [`${n}`] for an integer-valued number. *)
Definition ofZ (z : Z) : t := lit (NilZero.string_of_int (Z.to_int z)).

Fixpoint eqb (a b : t) : bool :=
  match a, b with
  | [], [] => true
  | x :: a', y :: b' => N.eqb x y && eqb a' b'
  | _, _ => false
  end.

(** WhiteSpace and LineTerminator code units of ECMAScript, the ones
    [String.prototype.trim] strips. *)
Definition isTrimmable (c : N) : bool :=
  (N.eqb c 9 || N.eqb c 10 || N.eqb c 11 || N.eqb c 12 || N.eqb c 13
   || N.eqb c 32 || N.eqb c 160 || N.eqb c 5760
   || (N.leb 8192 c && N.leb c 8202)
   || N.eqb c 8232 || N.eqb c 8233 || N.eqb c 8239 || N.eqb c 8287
   || N.eqb c 12288 || N.eqb c 65279)%N.

Fixpoint trimStart (s : t) : t :=
  match s with
  | c :: s' => if isTrimmable c then trimStart s' else s
  | [] => []
  end.

Definition trimEnd (s : t) : t := rev (trimStart (rev s)).

(** [s.trim()] *)
Definition trim (s : t) : t := trimEnd (trimStart s).

Definition star : N := 42.
Definition bullet : N := 8226.

(** [s.replace(/\*\*/g, "")]: the matches are taken left to right and do
    not overlap. *)
Fixpoint removeDoubleStars (s : t) : t :=
  match s with
  | [] => []
  | c :: s' =>
      match s' with
      | d :: s'' =>
          if (N.eqb c star && N.eqb d star)%bool then removeDoubleStars s''
          else c :: removeDoubleStars s'
      | [] => [c]
      end
  end.

(** [s.replace(/\*/g, "•")] *)
Definition starsToBullets (s : t) : t :=
  map (fun c => if N.eqb c star then bullet else c) s.

End JsString.

Definition jsstring : Type := JsString.t.
Notation "'js' s" := (JsString.lit s%string) (at level 9, s at level 0, only parsing).

(** ** JSON values, as [JSON.parse] and [res.json()] deliver them *)

Inductive json : Type :=
| JNull
| JBool (b : bool)
| JNum (n : Z)
| JStr (s : jsstring)
| JArr (items : list json)
| JObj (fields : list (jsstring * json)).

(** Own property lookup of a parsed object (its keys are distinct). *)
Fixpoint lookupField (k : jsstring) (fields : list (jsstring * json)) : option json :=
  match fields with
  | [] => None
  | (k', v) :: rest => if JsString.eqb k k' then Some v else lookupField k rest
  end.

(** [v.k] for a value [v] that is neither [null] nor [undefined], for the
    keys the program reads ([choices], [message], [content]): only an object
    can hold them; [None] is [undefined]. *)
Definition getProp (v : json) (k : jsstring) : option json :=
  match v with
  | JObj fields => lookupField k fields
  | _ => None
  end.

(** [v?.k] for a possibly undefined [v]. *)
Definition optChain (v : option json) (k : jsstring) : option json :=
  match v with
  | None | Some JNull => None
  | Some o => getProp o k
  end.

(** [!v] *)
Definition falsy (v : json) : bool :=
  match v with
  | JNull => true
  | JBool b => negb b
  | JNum n => n =? 0
  | JStr s => match s with [] => true | _ => false end
  | JArr _ | JObj _ => false
  end.

(** ** The error taxonomy *)

Inductive GroqErrorType : Type :=
| CONFIG | TIMEOUT | NETWORK | RATE_LIMIT | UPSTREAM | INVALID_RESPONSE | UNKNOWN.

(** A thrown value that is not a [GroqError]: an [Error] with its message
    (a [SyntaxError] of [res.json()], a [TypeError]), or a value that is not
    an [Error] at all. *)
Inductive Foreign : Type :=
| ForeignError (message : jsstring)
| ForeignValue.

Inductive Details : Type :=
| DetailsAbsent
| DetailsJson (j : json)
| DetailsLastError (e : option Foreign).

Record GroqError : Type := mkGroqError {
  type : GroqErrorType;
  message : jsstring;
  status : option Z;
  retriable : bool;
  details : Details
}.

Inductive Thrown : Type :=
| ThrowGroq (e : GroqError)
| ThrowForeign (e : Foreign).

(** ** Constants of the client *)

Definition GROQ_API_BASE_URL : jsstring := js "https://api.groq.com/openai/v1".
Definition GROQ_MODEL : jsstring := js "llama3-70b-8192".
Definition DEFAULT_TIMEOUT_MS : Z := 12000.
Definition DEFAULT_MAX_RETRIES : Z := 2.
Definition RETRY_BACKOFF_MS : list Z := [250; 500; 1000].

(** ** classifyHttpError *)

Definition classifyHttpError (status : Z) (details : json) : GroqError :=
  if (status =? 401) || (status =? 403) then
    {| type := CONFIG; status := Some status;
       message := js "Groq authentication failed (check GROQ_API_KEY)";
       retriable := false; details := DetailsJson details |}
  else if status =? 429 then
    {| type := RATE_LIMIT; status := Some status;
       message := js "Groq rate limit reached";
       retriable := true; details := DetailsJson details |}
  else if (500 <=? status) && (status <=? 599) then
    {| type := UPSTREAM; status := Some status;
       message := js "Groq upstream error (" ++ JsString.ofZ status ++ js ")";
       retriable := true; details := DetailsJson details |}
  else
    {| type := UPSTREAM; status := Some status;
       message := js "Groq request failed (" ++ JsString.ofZ status ++ js ")";
       retriable := false; details := DetailsJson details |}.

(** ** Requests and responses *)

Inductive GroqChatRole : Type := system | user | assistant.

Record GroqChatMessage : Type := mkMessage {
  role : GroqChatRole;
  content : jsstring
}.

Record GroqChatCompletionRequest : Type := mkRequest {
  model : jsstring;
  messages : list GroqChatMessage;
  temperature : Z;
  top_p : Z;
  max_tokens : Z;
  stream : bool
}.

(** The argument of [createGroqChatCompletion]: the request with an optional
    model and without [stream]. *)
Record RequestArg : Type := mkRequestArg {
  arg_model : option jsstring;
  arg_messages : list GroqChatMessage;
  arg_temperature : Z;
  arg_top_p : Z;
  arg_max_tokens : Z
}.

Record Options : Type := mkOptions {
  opt_timeoutMs : option Z;
  opt_maxRetries : option Z
}.

(** The [RequestInit] handed to [fetch]; the body is the request before
    [JSON.stringify]. *)
Record RequestInit : Type := mkInit {
  init_method : jsstring;
  init_authorization : jsstring;
  init_contentType : jsstring;
  init_body : GroqChatCompletionRequest
}.

(** What [res.json()] settles to. *)
Inductive BodyRead : Type :=
| BodyJson (j : json)
| BodyRejects (e : Foreign).

Record Response : Type := mkResponse {
  res_status : Z;
  res_json : BodyRead
}.

(** [res.ok] *)
Definition res_ok (r : Response) : bool :=
  (200 <=? res_status r) && (res_status r <=? 299).

(** What one call of [fetch] under the abort timer settles to. *)
Inductive FetchOutcome : Type :=
| FetchResolves (r : Response)
| FetchAborts
| FetchRejects (e : Foreign).

(** ** The environment and the effects *)

Record Env : Type := mkEnv {
  GROQ_API_KEY : option jsstring;
  (** the outcome of the [n]-th call of [fetch], counted from 0 *)
  fetch : nat -> FetchOutcome
}.

Inductive Event : Type :=
| EFetch (url : jsstring) (init : RequestInit) (timeoutMs : Z)
| ESleep (ms : Z).

(** The log holds the events so far, the latest first. *)
Definition Log : Type := list Event.

Definition isFetch (e : Event) : bool :=
  match e with EFetch _ _ _ => true | ESleep _ => false end.

Definition fetchCount (l : Log) : nat := List.length (filter isFetch l).

Definition sleepCount (l : Log) : nat :=
  List.length (filter (fun e => negb (isFetch e)) l).

(** The events in the order they happened. *)
Definition history (l : Log) : list Event := rev l.

Inductive Outcome (A : Type) : Type :=
| Ok (a : A)
| Throw (t : Thrown).
Arguments Ok {A} a.
Arguments Throw {A} t.

Definition M (A : Type) : Type := Log -> Outcome A * Log.

Definition ret {A} (a : A) : M A := fun l => (Ok a, l).

Definition throw {A} (t : Thrown) : M A := fun l => (Throw t, l).

Definition bind {A B} (c : M A) (k : A -> M B) : M B :=
  fun l =>
    match c l with
    | (Ok a, l') => k a l'
    | (Throw t, l') => (Throw t, l')
    end.

(** [try { c } catch (e) { h e }] *)
Definition tryCatch {A} (c : M A) (h : Thrown -> M A) : M A :=
  fun l =>
    match c l with
    | (Ok a, l') => (Ok a, l')
    | (Throw t, l') => h t l'
    end.

Notation "x <- c ;; k" := (bind c (fun x => k))
  (at level 61, c at next level, right associativity).
Notation "c ;; k" := (bind c (fun _ => k))
  (at level 61, right associativity).

Definition throwGroq {A} (e : GroqError) : M A := throw (ThrowGroq e).

(** [await sleep(ms)] *)
Definition sleep (ms : Z) : M unit := fun l => (Ok tt, ESleep ms :: l).

(** [RETRY_BACKOFF_MS[Math.min(attempt, RETRY_BACKOFF_MS.length - 1)]]; the
    attempt counter is never negative, so the index is within the table. *)
Definition backoffMs (attempt : Z) : Z :=
  nth (Z.to_nat (Z.min attempt (Z.of_nat (List.length RETRY_BACKOFF_MS) - 1)))
      RETRY_BACKOFF_MS 0.
Arguments backoffMs : simpl never.

(** What leaves one iteration of the retry loop: [return data], [continue]
    or [break], the last two with the value assigned to [lastError]. *)
Inductive LoopControl : Type :=
| Return (data : json)
| Continue (lastError : Thrown)
| Break (lastError : Thrown).

(** [typeof v === "object"] *)
Definition typeofObject (v : json) : bool :=
  match v with
  | JNull | JArr _ | JObj _ => true
  | JBool _ | JNum _ | JStr _ => false
  end.

(** [k in v], for an object or an array [v] and the key [choices]. *)
Definition hasProp (k : jsstring) (v : json) : bool :=
  match getProp v k with
  | Some _ => true
  | None => false
  end.

(** [Array.isArray(v)], [None] being [undefined]. *)
Definition isArray (v : option json) : bool :=
  match v with
  | Some (JArr _) => true
  | _ => false
  end.

(** The shape test on the parsed body:
    [!data || typeof data !== "object" || !("choices" in data)
     || !Array.isArray(data.choices)]. *)
Definition invalidShape (data : json) : bool :=
  falsy data
  || negb (typeofObject data)
  || negb (hasProp (js "choices") data)
  || negb (isArray (getProp data (js "choices"))).

(** The error of a missing credential. *)
Definition configError : GroqError :=
  {| type := CONFIG; message := js "GROQ_API_KEY is not configured";
     status := None; retriable := false; details := DetailsAbsent |}.

(** The three errors of a failed attempt. *)
Definition timeoutError (timeoutMs : Z) : GroqError :=
  {| type := TIMEOUT;
     message := js "Groq request timed out after " ++ JsString.ofZ timeoutMs ++ js "ms";
     status := None; retriable := true; details := DetailsAbsent |}.

Definition networkError (e : Foreign) : GroqError :=
  {| type := NETWORK;
     message := match e with
                | ForeignError m => m
                | ForeignValue => js "Network error calling Groq"
                end;
     status := None; retriable := true; details := DetailsAbsent |}.

(** [classifyHttpError(res.status, await res.json().catch(() => null))] *)
Definition httpError (res : Response) : GroqError :=
  classifyHttpError (res_status res)
    match res_json res with BodyJson j => j | BodyRejects _ => JNull end.

(** [options?.timeoutMs ?? DEFAULT_TIMEOUT_MS] *)
Definition timeoutMsOf (options : option Options) : Z :=
  match options with
  | Some {| opt_timeoutMs := Some t |} => t
  | _ => DEFAULT_TIMEOUT_MS
  end.

(** [options?.maxRetries ?? DEFAULT_MAX_RETRIES] *)
Definition maxRetriesOf (options : option Options) : Z :=
  match options with
  | Some {| opt_maxRetries := Some r |} => r
  | _ => DEFAULT_MAX_RETRIES
  end.

(** The body, the URL and the [RequestInit] of the call. *)
Definition requestBody (request : RequestArg) : GroqChatCompletionRequest :=
  {| model := match arg_model request with Some m => m | None => GROQ_MODEL end;
     messages := arg_messages request;
     temperature := arg_temperature request;
     top_p := arg_top_p request;
     max_tokens := arg_max_tokens request;
     stream := false |}.

Definition completionsUrl : jsstring := GROQ_API_BASE_URL ++ js "/chat/completions".

Definition requestInit (apiKey : jsstring) (body : GroqChatCompletionRequest)
  : RequestInit :=
  {| init_method := js "POST";
     init_authorization := js "Bearer " ++ apiKey;
     init_contentType := js "application/json";
     init_body := body |}.

Section Client.

Variable env : Env.

(** getApiKey *)
Definition getApiKey : M jsstring :=
  match GROQ_API_KEY env with
  | None | Some [] => throwGroq configError
  | Some apiKey => ret apiKey
  end.

(** The call of [fetch] itself: logged, its outcome given by the oracle. *)
Definition callFetch (url : jsstring) (init : RequestInit) (timeoutMs : Z)
  : M FetchOutcome :=
  fun l => (Ok (fetch env (fetchCount l)), EFetch url init timeoutMs :: l).

(** fetchWithTimeout *)
Definition fetchWithTimeout (url : jsstring) (init : RequestInit) (timeoutMs : Z)
  : M Response :=
  o <- callFetch url init timeoutMs ;;
  match o with
  | FetchResolves r => ret r
  | FetchAborts => throwGroq (timeoutError timeoutMs)
  | FetchRejects e => throwGroq (networkError e)
  end.

(** [await res.json()] *)
Definition resJson (res : Response) : M json :=
  match res_json res with
  | BodyJson j => ret j
  | BodyRejects e => throw (ThrowForeign e)
  end.

Section Loop.

Variables (url : jsstring) (init : RequestInit) (timeoutMs maxRetries : Z).

(** The [try] block of the loop body. *)
Definition tryBlock (attempt : Z) : M LoopControl :=
  res <- fetchWithTimeout url init timeoutMs ;;
  if negb (res_ok res) then
    let err := httpError res in
    if negb (retriable err) || (attempt =? maxRetries) then throwGroq err
    else sleep (backoffMs attempt) ;; ret (Continue (ThrowGroq err))
  else
    data <- resJson res ;;
    if invalidShape data then
      throwGroq {| type := INVALID_RESPONSE;
                   message := js "Invalid response shape from Groq";
                   status := None; retriable := false; details := DetailsJson data |}
    else ret (Return data).

(** The [catch] block of the loop body. *)
Definition catchBlock (attempt : Z) (e : Thrown) : M LoopControl :=
  match e with
  | ThrowGroq err =>
      if retriable err && (attempt <? maxRetries) then
        sleep (backoffMs attempt) ;; ret (Continue (ThrowGroq err))
      else ret (Break e)
  | ThrowForeign _ => ret (Break e)
  end.

Definition iteration (attempt : Z) : M LoopControl :=
  tryCatch (tryBlock attempt) (catchBlock attempt).

(** The statements after the loop. *)
Definition afterLoop (lastError : option Thrown) : M json :=
  match lastError with
  | Some (ThrowGroq e) => throwGroq e
  | Some (ThrowForeign f) =>
      throwGroq {| type := UNKNOWN;
                   message := match f with
                              | ForeignError m => m
                              | ForeignValue => js "Unknown Groq error"
                              end;
                   status := None; retriable := false;
                   details := DetailsLastError (Some f) |}
  | None =>
      throwGroq {| type := UNKNOWN; message := js "Unknown Groq error";
                   status := None; retriable := false;
                   details := DetailsLastError None |}
  end.

(** [for (let attempt = 0; attempt <= maxRetries; attempt++) { ... }]
    followed by the statements after it, from the given value of [attempt]. *)
Equations retryLoop (attempt : Z) (lastError : option Thrown) (l : Log)
  : Outcome json * Log by wf (Z.to_nat (maxRetries + 1 - attempt)) lt :=
retryLoop attempt lastError l with Z_le_dec attempt maxRetries := {
  | right _ => afterLoop lastError l
  | left _ with iteration attempt l := {
    | (Ok (Return data), l') => (Ok data, l')
    | (Ok (Continue e), l') => retryLoop (attempt + 1) (Some e) l'
    | (Ok (Break e), l') => afterLoop (Some e) l'
    | (Throw t, l') => (Throw t, l') } }.
Next Obligation. lia. Qed.

End Loop.

(** createGroqChatCompletion *)
Definition createGroqChatCompletion (request : RequestArg) (options : option Options)
  : M json :=
  apiKey <- getApiKey ;;
  let timeoutMs := timeoutMsOf options in
  let maxRetries := maxRetriesOf options in
  let body := requestBody request in
  let url := completionsUrl in
  retryLoop url (requestInit apiKey body) timeoutMs maxRetries 0 None.

End Client.

(** ** generateGroqResponse *)

Definition SYSTEM_PROMPT : jsstring :=
  js "You are a cryptocurrency trading assistant. Provide clear, concise responses. Do not use asterisks (*). Format lists with bullet points ("
  ++ [226; 8364; 162]%N ++ js ").".

(** [v?.[0]] *)
Definition optIndex0 (v : option json) : option json :=
  match v with
  | Some (JArr (x :: _)) => Some x
  | Some (JStr (c :: _)) => Some (JStr [c])
  | Some (JObj fields) => lookupField (js "0") fields
  | _ => None
  end.

(** [completion.choices?.[0]?.message?.content ?? ""] *)
Definition extractText (completion : json) : json :=
  match optChain (optChain (optIndex0 (getProp completion (js "choices")))
                           (js "message")) (js "content") with
  | None | Some JNull => JStr []
  | Some v => v
  end.

(** The request of the orchestrator. *)
Definition chatRequest (prompt : jsstring) : RequestArg :=
  {| arg_model := None;
     arg_messages := [ {| role := system; content := SYSTEM_PROMPT |};
                       {| role := user; content := prompt |} ];
     arg_temperature := 0;
     arg_top_p := 1;
     arg_max_tokens := 1024 |}.

(** The error of an empty answer. *)
Definition emptyResponseError (completion : json) : GroqError :=
  {| type := INVALID_RESPONSE;
     message := js "Groq returned an empty response";
     status := None; retriable := false;
     details := DetailsJson completion |}.

Definition generateGroqResponse (env : Env) (prompt : jsstring) : M jsstring :=
  completion <- createGroqChatCompletion env (chatRequest prompt) None ;;
  let text := extractText completion in
  if falsy text then throwGroq (emptyResponseError completion)
  else
    match text with
    | JStr s => ret (JsString.trim s)
    | _ => (* a content that is no string has no [trim] method *)
        throw (ThrowForeign (ForeignError (js "text.trim is not a function")))
    end.

(** ** The chat endpoint: POST *)

(** What the template literal [`${message}`] makes of a value that is not
    a string: its text, or the [TypeError] of a value that has no string
    conversion (an object whose own [toString] field hides the method).
    ECMAScript's conversion of numbers, arrays and objects to text is not
    modelled: a body carries its result. *)
Inductive Converted : Type :=
| ConvertsTo (text : jsstring)
| ConvertFails (typeError : jsstring).

(** The request body. [BodyObject] is a body as the handler types it,
    [{ message?: string }], with [None] for a body that has no message;
    [BodyUntyped] is a body whose message is present with a value of any
    JSON type ([null], a boolean, a number, an array, an object), given
    with what the template literal makes of it; [BodyUnreadable] is a body
    [req.json()] rejects or one that cannot be destructured. *)
Inductive RequestBody : Type :=
| BodyUnreadable (e : Foreign)
| BodyObject (message : option jsstring)
| BodyUntyped (message : json) (text : Converted).

(** The value of [message] after the destructuring. *)
Inductive MessageField : Type :=
| FieldAbsent
| FieldString (s : jsstring)
| FieldOther (v : json) (text : Converted).

Inductive Payload : Type :=
| PayloadError (error : jsstring)
| PayloadResponse (response : jsstring).

(** [NextResponse.json(payload, { status })] *)
Record HttpResponse : Type := mkHttp {
  http_payload : Payload;
  http_status : Z
}.

Definition PROMPT_PREFIX : jsstring :=
  js "You are a cryptocurrency trading assistant. Help the user with their query about crypto trading, market analysis, and investment strategies. Provide clear, concise responses without using asterisks (*). Format lists with bullet points ("
  ++ [JsString.bullet] ++ js ") instead. Here's the user's message: ".

(** [const { message } = await req.json()] *)
Definition readMessage (req : RequestBody) : M MessageField :=
  match req with
  | BodyUnreadable e => throw (ThrowForeign e)
  | BodyObject None => ret FieldAbsent
  | BodyObject (Some s) => ret (FieldString s)
  | BodyUntyped v text => ret (FieldOther v text)
  end.

(** [!message] *)
Definition messageFalsy (message : MessageField) : bool :=
  match message with
  | FieldAbsent => true
  | FieldString s => falsy (JStr s)
  | FieldOther v _ => falsy v
  end.

(** [`${message}`], for a message that is not falsy. *)
Definition templateText (message : MessageField) : M jsstring :=
  match message with
  | FieldAbsent => ret (js "undefined")
  | FieldString s => ret s
  | FieldOther _ (ConvertsTo text) => ret text
  | FieldOther _ (ConvertFails typeError) =>
      throw (ThrowForeign (ForeignError typeError))
  end.

(** [.replace(/\*\*/g, "").replace(/\*/g, "•").trim()] *)
Definition cleanResponse (response : jsstring) : jsstring :=
  JsString.trim (JsString.starsToBullets (JsString.removeDoubleStars response)).

(** The status chosen in the [catch] block. *)
Definition errorStatus (error : Thrown) : Z :=
  match error with
  | ThrowGroq e =>
      match type e with
      | RATE_LIMIT | TIMEOUT | UPSTREAM => 503
      | _ => 500
      end
  | ThrowForeign _ => 500
  end.

(** [error instanceof Error ? error.message : "Failed to generate response"] *)
Definition errorMessage (error : Thrown) : jsstring :=
  match error with
  | ThrowGroq e => message e
  | ThrowForeign (ForeignError m) => m
  | ThrowForeign ForeignValue => js "Failed to generate response"
  end.

(** POST; its [console.error] writes to the server log only and is left
    out. *)
Definition POST (env : Env) (req : RequestBody) : M HttpResponse :=
  tryCatch
    (message <- readMessage req ;;
     if messageFalsy message then
       ret {| http_payload := PayloadError (js "Message is required");
              http_status := 400 |}
     else
       text <- templateText message ;;
       let prompt := PROMPT_PREFIX ++ text in
       response <- generateGroqResponse env prompt ;;
       ret {| http_payload := PayloadResponse (cleanResponse response);
              http_status := 200 |})
    (fun error =>
       ret {| http_payload := PayloadError (errorMessage error);
              http_status := errorStatus error |}).

(** A run from the empty log. *)
Definition run {A} (c : M A) : Outcome A * Log := c [].

(** ** The site header: which navigation link is highlighted *)

Record NavItem : Type := mkNavItem {
  href : jsstring;
  label : jsstring
}.

Definition NAV_ITEMS : list NavItem :=
  [ {| href := js "/"; label := js "Home" |};
    {| href := js "/market"; label := js "Market" |};
    {| href := js "/news"; label := js "News" |};
    {| href := js "/chat"; label := js "Chat" |} ].

(** [s.startsWith(prefix)] *)
Fixpoint startsWith (s prefix : jsstring) {struct prefix} : bool :=
  match prefix with
  | [] => true
  | p :: prefix' =>
      match s with
      | [] => false
      | c :: s' => N.eqb c p && startsWith s' prefix'
      end
  end.

(** isActivePath *)
Definition isActivePath (pathname href : jsstring) : bool :=
  if JsString.eqb href (js "/") then JsString.eqb pathname (js "/")
  else JsString.eqb pathname href || startsWith pathname (href ++ js "/").

(** The links of [SiteHeader], each with the [active] flag that selects its
    class. *)
Definition navLinks (pathname : jsstring) : list (NavItem * bool) :=
  map (fun item => (item, isActivePath pathname (href item))) NAV_ITEMS.

(** ** The specification's vocabulary *)

(** The classification table of the specification: which kind and which
    retriable flag go with an HTTP status. *)
Inductive Classification : Z -> GroqErrorType -> bool -> Prop :=
| class_auth s : s = 401 \/ s = 403 -> Classification s CONFIG false
| class_rate_limit : Classification 429 RATE_LIMIT true
| class_server s : 500 <= s <= 599 -> Classification s UPSTREAM true
| class_other s :
    s <> 401 -> s <> 403 -> s <> 429 -> ~ (500 <= s <= 599) ->
    Classification s UPSTREAM false.

(** The backoff schedule of the specification, by the index of the attempt
    that failed. *)
Definition scheduleMs (i : nat) : Z :=
  match i with
  | O => 250
  | S O => 500
  | _ => 1000
  end.

(** The history of [n] attempts, the first with index [i], where a sleep of
    the schedule stands between two attempts and nowhere else; [f] is the
    fetch event of an attempt. *)
Fixpoint retryHistory (f : Event) (i n : nat) : list Event :=
  match n with
  | O => []
  | S n' =>
      match n' with
      | O => [f]
      | S _ => f :: ESleep (scheduleMs i) :: retryHistory f (S i) n'
      end
  end.

(** The retriable flag as the specification derives it from the kind and the
    status. *)
Definition retriableOf (kind : GroqErrorType) (status : option Z) : bool :=
  match kind with
  | CONFIG | INVALID_RESPONSE | UNKNOWN => false
  | TIMEOUT | NETWORK | RATE_LIMIT => true
  | UPSTREAM =>
      match status with
      | Some s => (500 <=? s) && (s <=? 599)
      | None => false
      end
  end.

Definition wellClassified (e : GroqError) : Prop :=
  retriable e = retriableOf (type e) (status e).

(** A thrown value whose error, when it is a classified one, carries the
    flag of its kind and status. *)
Definition thrownWell (t : Thrown) : Prop :=
  match t with
  | ThrowGroq g => wellClassified g
  | ThrowForeign _ => True
  end.

(** The classified error of an attempt whose call of [fetch] settled to [o]
    without a success status. *)
Definition classifiedFailure (timeoutMs : Z) (o : FetchOutcome) : option GroqError :=
  match o with
  | FetchAborts => Some (timeoutError timeoutMs)
  | FetchRejects e => Some (networkError e)
  | FetchResolves r => if res_ok r then None else Some (httpError r)
  end.

(** The kinds the endpoint answers with 503. *)
Definition unavailableKind (k : GroqErrorType) : Prop :=
  k = RATE_LIMIT \/ k = TIMEOUT \/ k = UPSTREAM.

(** The text the specification expects for the Bitcoin example, and the
    text with both single markers turned into bullets. *)
Definition bitcoinExpected : jsstring :=
  js "Bitcoin is " ++ [JsString.bullet] ++ js "digital gold".

Definition bitcoinCleaned : jsstring :=
  js "Bitcoin is " ++ [JsString.bullet] ++ js "digital" ++ [JsString.bullet] ++ js " gold".

Definition messageRequired : HttpResponse :=
  {| http_payload := PayloadError (js "Message is required"); http_status := 400 |}.

Definition configured (env : Env) : Prop :=
  exists c k, GROQ_API_KEY env = Some (c :: k).

(** What one iteration does, by the outcome of its call of [fetch]. *)
Inductive IterationCase (env : Env) (f : Event) (timeoutMs maxRetries attempt : Z) (l : Log)
  : LoopControl -> Log -> Prop :=
| iter_retry g :
    classifiedFailure timeoutMs (fetch env (fetchCount l)) = Some g ->
    retriable g = true -> attempt <> maxRetries ->
    IterationCase env f timeoutMs maxRetries attempt l (Continue (ThrowGroq g)) (ESleep (backoffMs attempt) :: f :: l)
| iter_give_up g :
    classifiedFailure timeoutMs (fetch env (fetchCount l)) = Some g ->
    retriable g = false \/ maxRetries <= attempt ->
    IterationCase env f timeoutMs maxRetries attempt l (Break (ThrowGroq g)) (f :: l)
| iter_unreadable r e :
    fetch env (fetchCount l) = FetchResolves r -> res_ok r = true ->
    res_json r = BodyRejects e ->
    IterationCase env f timeoutMs maxRetries attempt l (Break (ThrowForeign e)) (f :: l)
| iter_invalid r data g :
    fetch env (fetchCount l) = FetchResolves r -> res_ok r = true ->
    res_json r = BodyJson data -> invalidShape data = true ->
    type g = INVALID_RESPONSE -> retriable g = false -> status g = None ->
    IterationCase env f timeoutMs maxRetries attempt l (Break (ThrowGroq g)) (f :: l)
| iter_return r data :
    fetch env (fetchCount l) = FetchResolves r -> res_ok r = true ->
    res_json r = BodyJson data -> invalidShape data = false ->
    IterationCase env f timeoutMs maxRetries attempt l (Return data) (f :: l).

(** The highlighted links of a page. *)
Definition activeLinks (pathname : jsstring) : list NavItem :=
  map fst (filter snd (navLinks pathname)).

(** [k] attempts that were each followed by their sleep, the first with
    index [i]. *)
Fixpoint sleptAttempts (f : Event) (i k : nat) : list Event :=
  match k with
  | O => []
  | S k' => f :: ESleep (scheduleMs i) :: sleptAttempts f (S i) k'
  end.

(** The time spent in backoff sleeps, in milliseconds. *)
Fixpoint sleepTotal (l : Log) : Z :=
  match l with
  | [] => 0
  | EFetch _ _ _ :: l' => sleepTotal l'
  | ESleep ms :: l' => ms + sleepTotal l'
  end.

(** A text with no blank at either end. *)
Definition trimmed (s : jsstring) : Prop :=
  match s with
  | [] => True
  | c :: _ => JsString.isTrimmable c = false
  end
  /\ match rev s with
     | [] => True
     | c :: _ => JsString.isTrimmable c = false
     end.

Definition starFree (s : jsstring) : Prop := ~ In JsString.star s.

(** A body of the shape the client accepts. *)
Definition hasChoices (data : json) : Prop :=
  exists fields items,
    data = JObj fields /\ lookupField (js "choices") fields = Some (JArr items).


(** The fetch event of a call of the client made with the credential
    [apiKey]. *)
Definition fetchEvent (apiKey : jsstring) (request : RequestArg) (options : option Options)
  : Event :=
  EFetch completionsUrl (requestInit apiKey (requestBody request)) (timeoutMsOf options).

(** ** Stubs used in the examples *)

Definition someRequest : RequestArg :=
  {| arg_model := None; arg_messages := []; arg_temperature := 0;
     arg_top_p := 1; arg_max_tokens := 16 |}.

Definition withRetries (n : Z) : option Options :=
  Some {| opt_timeoutMs := None; opt_maxRetries := Some n |}.

Definition respond (status : Z) (body : json) : FetchOutcome :=
  FetchResolves {| res_status := status; res_json := BodyJson body |}.

Definition completionWith (content : jsstring) : json :=
  JObj [(js "choices",
         JArr [JObj [(js "message", JObj [(js "content", JStr content)])]])].

Definition stubEnv (outcome : nat -> FetchOutcome) : Env :=
  {| GROQ_API_KEY := Some (js "gsk_test"); fetch := outcome |}.

Definition bitcoinEnv : Env :=
  stubEnv (fun _ => respond 200 (completionWith (js "Bitcoin is *digital* **gold**"))).

(** A transport that answers every call with 503. *)
Definition unavailableEnv : Env := stubEnv (fun _ => respond 503 JNull).

(** A transport that rejects the credential. *)
Definition unauthorizedEnv : Env := stubEnv (fun _ => respond 401 JNull).

(** No credential; the transport would answer. *)
Definition noKeyEnv : Env :=
  {| GROQ_API_KEY := None; fetch := fun _ => respond 200 (completionWith (js "hello")) |}.

(** A transport that cannot reach the host. *)
Definition networkDownEnv : Env :=
  stubEnv (fun _ => FetchRejects (ForeignError (js "fetch failed"))).

(** A transport that answers every call with 404. *)
Definition notFoundEnv : Env := stubEnv (fun _ => respond 404 JNull).

(** A transport whose answer holds blanks only. *)
Definition blankEnv : Env := stubEnv (fun _ => respond 200 (completionWith (js "   "))).

(** A transport that answers 503 twice and then succeeds. *)
Definition flakyEnv : Env :=
  stubEnv (fun n => match n with
                    | O | S O => respond 503 JNull
                    | _ => respond 200 (completionWith (js "hello"))
                    end).

(** A transport that answers 429 once and then 400. *)
Definition throttledThenBadEnv : Env :=
  stubEnv (fun n => match n with
                    | O => respond 429 JNull
                    | _ => respond 400 JNull
                    end).

(** A transport whose successful response is not JSON. *)
Definition garbledEnv : Env :=
  stubEnv (fun _ => FetchResolves
                      {| res_status := 200;
                         res_json := BodyRejects (ForeignError (js "Unexpected token")) |}).

(** A transport whose successful response has no [choices]. *)
Definition shapelessEnv : Env :=
  stubEnv (fun _ => respond 200 (JObj [(js "error", JStr (js "overloaded"))])).

(** A transport whose answer has a number where the text should be. *)
Definition numberEnv : Env :=
  stubEnv (fun _ => respond 200
    (JObj [(js "choices",
            JArr [JObj [(js "message", JObj [(js "content", JNum 42)])]])])).

Definition bitcoinRequest : RequestBody := BodyObject (Some (js "What is Bitcoin?")).

(** ** Properties of the classification *)

Lemma classifyHttpError_type_retriable s d :
  Classification s (type (classifyHttpError s d)) (retriable (classifyHttpError s d)).
Proof.
  unfold classifyHttpError.
  destruct (Z.eqb_spec s 401) as [->|n401]; [constructor; lia|].
  destruct (Z.eqb_spec s 403) as [->|n403]; [constructor; lia|].
  destruct (Z.eqb_spec s 429) as [->|n429]; [constructor|].
  cbn [orb].
  destruct (Z.leb_spec 500 s), (Z.leb_spec s 599); cbn [andb type retriable];
    first [ apply class_server; lia | apply class_other; lia ].
Qed.

Lemma Classification_functional s k r k' r' :
  Classification s k r -> Classification s k' r' -> k = k' /\ r = r'.
Proof.
  intros H H'; destruct H; inversion H'; subst; split; auto; lia.
Qed.

(** C1: the classification of an HTTP status is a total function that
    follows the table: 401 and 403 give CONFIG, not retriable; 429 gives
    RATE_LIMIT, retriable; 500 to 599 give UPSTREAM, retriable; every other
    status gives UPSTREAM, not retriable. The error of a response without a
    success status is classified this way, and the table leaves no choice. *)
Theorem classification_table (s : Z) (d : json) :
  let e := classifyHttpError s d in
  Classification s (type e) (retriable e)
  /\ status e = Some s
  /\ (forall k r, Classification s k r -> k = type e /\ r = retriable e)
  /\ (forall body, classifiedFailure 0 (respond s body) =
                   if (200 <=? s) && (s <=? 299) then None
                   else Some (classifyHttpError s body)).
Proof.
  cbv zeta. split; [apply classifyHttpError_type_retriable|].
  split.
  { unfold classifyHttpError.
    destruct (_ || _); [reflexivity|].
    destruct (s =? 429); [reflexivity|].
    destruct (_ && _); reflexivity. }
  split.
  { intros k r H.
    apply (Classification_functional s); [exact H|apply classifyHttpError_type_retriable]. }
  intros body. reflexivity.
Qed.

Lemma classification_table_witness :
  Classification 503 UPSTREAM true
  /\ type (classifyHttpError 503 JNull) = UPSTREAM
  /\ retriable (classifyHttpError 503 JNull) = true.
Proof.
  destruct (classification_table 503 JNull) as (Hrow & _ & Hfun & _).
  split; [exact Hrow|].
  assert (H : Classification 503 UPSTREAM true) by (apply class_server; lia).
  destruct (Hfun UPSTREAM true H) as [Hk Hr].
  split; [symmetry; exact Hk|symmetry; exact Hr].
Defined.

(** The four rows of the table at the statuses the specification names. *)
Lemma classification_table_rows :
  (type (classifyHttpError 401 JNull), retriable (classifyHttpError 401 JNull)) = (CONFIG, false)
  /\ (type (classifyHttpError 403 JNull), retriable (classifyHttpError 403 JNull)) = (CONFIG, false)
  /\ (type (classifyHttpError 429 JNull), retriable (classifyHttpError 429 JNull)) = (RATE_LIMIT, true)
  /\ (type (classifyHttpError 503 JNull), retriable (classifyHttpError 503 JNull)) = (UPSTREAM, true)
  /\ (type (classifyHttpError 404 JNull), retriable (classifyHttpError 404 JNull)) = (UPSTREAM, false).
Proof. repeat split. Qed.

(** ** The retry loop *)

Lemma backoffMs_schedule (i : nat) : backoffMs (Z.of_nat i) = scheduleMs i.
Proof.
  unfold backoffMs. cbn [RETRY_BACKOFF_MS List.length].
  destruct i as [|[|[|i]]]; try reflexivity.
  replace (Z.min _ _) with 2 by lia. reflexivity.
Qed.

Lemma fetchCount_fetch u i t l : fetchCount (EFetch u i t :: l) = S (fetchCount l).
Proof. reflexivity. Qed.

Lemma fetchCount_sleep ms l : fetchCount (ESleep ms :: l) = fetchCount l.
Proof. reflexivity. Qed.

Lemma fetchCount_rev l : fetchCount (rev l) = fetchCount l.
Proof.
  unfold fetchCount. induction l as [|e l IH]; [reflexivity|].
  cbn [rev filter]. rewrite filter_app, length_app, IH.
  destruct e; cbn [isFetch filter List.length]; lia.
Qed.

Lemma retryHistory_step f i n :
  retryHistory f i (S (S n)) = f :: ESleep (scheduleMs i) :: retryHistory f (S i) (S n).
Proof. reflexivity. Qed.

Lemma fetchCount_retryHistory u i t k n :
  fetchCount (retryHistory (EFetch u i t) k n) = n.
Proof.
  revert k. induction n as [|[|n] IH]; intros k; [reflexivity|reflexivity|].
  rewrite retryHistory_step, fetchCount_fetch, fetchCount_sleep, IH. reflexivity.
Qed.

Lemma sleepCount_retryHistory u i t k n :
  sleepCount (retryHistory (EFetch u i t) k n) = Nat.pred n.
Proof.
  revert k. induction n as [|[|n] IH]; intros k; [reflexivity|reflexivity|].
  rewrite retryHistory_step. unfold sleepCount in *. cbn [filter isFetch negb List.length].
  rewrite IH. reflexivity.
Qed.

Section LoopFacts.

Variables (env : Env) (url : jsstring) (init : RequestInit) (timeoutMs maxRetries : Z).

Local Abbreviation f := (EFetch url init timeoutMs).
Local Abbreviation loop := (retryLoop env url init timeoutMs maxRetries).
Local Abbreviation body := (iteration env url init timeoutMs maxRetries).

(** The loop, one iteration unfolded. *)
Lemma retryLoop_step attempt lastError l :
  loop attempt lastError l =
  if Z_le_dec attempt maxRetries then
    match body attempt l with
    | (Ok (Return data), l') => (Ok data, l')
    | (Ok (Continue e), l') => loop (attempt + 1) (Some e) l'
    | (Ok (Break e), l') => afterLoop (Some e) l'
    | (Throw t, l') => (Throw t, l')
    end
  else afterLoop lastError l.
Proof.
  simp retryLoop.
  destruct (Z_le_dec attempt maxRetries) as [Hle|Hgt]; cbn; [|reflexivity].
  destruct (iteration env url init timeoutMs maxRetries attempt l) as [[[d|e|e]|t] l'];
    cbn; reflexivity.
Qed.

Lemma iteration_cases attempt l :
  exists c l', body attempt l = (Ok c, l')
               /\ IterationCase env f timeoutMs maxRetries attempt l c l'.
Proof.
  unfold iteration, tryCatch, tryBlock, fetchWithTimeout, callFetch, bind.
  destruct (fetch env (fetchCount l)) as [r| |e] eqn:Ho.
  - cbn. destruct (res_ok r) eqn:Hok; cbn.
    + unfold resJson. destruct (res_json r) as [data|e] eqn:Hj; cbn.
      * destruct (invalidShape data) eqn:Hs; cbn.
        -- eexists _, _. split; [reflexivity|].
           eapply iter_invalid; eauto.
        -- eexists _, _. split; [reflexivity|]. eapply iter_return; eauto.
      * eexists _, _. split; [reflexivity|]. eapply iter_unreadable; eauto.
    + assert (Hc : classifiedFailure timeoutMs (fetch env (fetchCount l)) = Some (httpError r))
        by (rewrite Ho; cbn; rewrite Hok; reflexivity).
      destruct (retriable (httpError r)) eqn:Hr; cbn.
      * destruct (Z.eqb_spec attempt maxRetries) as [Heq|Hne]; cbn.
        -- rewrite Hr. cbn.
           destruct (Z.ltb_spec attempt maxRetries); [lia|]. cbn.
           eexists _, _. split; [reflexivity|].
           eapply iter_give_up; [eassumption|right; lia].
        -- eexists _, _. split; [reflexivity|].
           eapply iter_retry; [eassumption|assumption|assumption].
      * rewrite Hr. cbn.
        eexists _, _. split; [reflexivity|].
        eapply iter_give_up; [eassumption|left; assumption].
  - cbn.
    assert (Hc : classifiedFailure timeoutMs (fetch env (fetchCount l)) = Some (timeoutError timeoutMs))
      by (rewrite Ho; reflexivity).
    destruct (Z.ltb_spec attempt maxRetries); cbn.
    + eexists _, _. split; [reflexivity|].
      eapply iter_retry; [eassumption|reflexivity|lia].
    + eexists _, _. split; [reflexivity|].
      eapply iter_give_up; [eassumption|right; lia].
  - cbn.
    assert (Hc : classifiedFailure timeoutMs (fetch env (fetchCount l)) = Some (networkError e))
      by (rewrite Ho; reflexivity).
    destruct (Z.ltb_spec attempt maxRetries); cbn.
    + eexists _, _. split; [reflexivity|].
      eapply iter_retry; [eassumption|reflexivity|lia].
    + eexists _, _. split; [reflexivity|].
      eapply iter_give_up; [eassumption|right; lia].
Qed.

Lemma wellClassified_classifyHttpError s d : wellClassified (classifyHttpError s d).
Proof.
  unfold wellClassified, classifyHttpError.
  destruct (_ || _); [reflexivity|].
  destruct (s =? 429); [reflexivity|].
  destruct (_ && _) eqn:H; cbn; rewrite H; reflexivity.
Qed.

Lemma wellClassified_classifiedFailure o g :
  classifiedFailure timeoutMs o = Some g -> wellClassified g.
Proof.
  destruct o as [r| |e]; cbn.
  - destruct (res_ok r); [discriminate|].
    intros [= <-]. apply wellClassified_classifyHttpError.
  - intros [= <-]. reflexivity.
  - intros [= <-]. reflexivity.
Qed.

Lemma afterLoop_throws lastError l :
  (forall e, lastError = Some e -> thrownWell e) ->
  exists g, afterLoop lastError l = (Throw (ThrowGroq g), l) /\ wellClassified g.
Proof.
  intros H. destruct lastError as [[g|[m|]]|]; cbn; eexists; split;
    try reflexivity.
  apply (H (ThrowGroq g)). reflexivity.
Qed.

(** The log of the loop: attempts with the sleeps of the schedule between
    them, at least one attempt when the loop is entered, and no more than
    the head of the loop lets through. *)
Lemma retryLoop_history n :
  forall attempt lastError l r l',
    Z.to_nat (maxRetries + 1 - attempt) = n -> 0 <= attempt ->
    loop attempt lastError l = (r, l') ->
    exists k,
      l' = rev (retryHistory f (Z.to_nat attempt) k) ++ l
      /\ (attempt <= maxRetries -> (1 <= k)%nat)
      /\ Z.of_nat k <= Z.max 0 (maxRetries + 1 - attempt).
Proof.
  induction n as [|n IH]; intros attempt lastError l r l' Hn Hpos;
    rewrite retryLoop_step; destruct (Z_le_dec attempt maxRetries) as [Hle|Hgt];
    try lia.
  - intros H. exists O. split; [|split; [lia|lia]].
    destruct lastError as [[?|[?|]]|]; cbn in H; injection H as _ <-; reflexivity.
  - destruct (iteration_cases attempt l) as (c & l1 & -> & Hc).
    destruct Hc as [g Hf Hr Hne|g Hf Hr|r0 e Hf Hok Hj|r0 data g Hf Hok Hj Hs|r0 data Hf Hok Hj Hs].
    + intros H.
      apply IH in H; [|lia|lia].
      destruct H as (k & -> & Hk1 & Hk2).
      destruct k as [|k]; [lia|].
      exists (S (S k)). split; [|split; [lia|lia]].
      rewrite retryHistory_step.
      replace (S (Z.to_nat attempt)) with (Z.to_nat (attempt + 1)) by lia.
      rewrite <- backoffMs_schedule, Z2Nat.id by lia.
      cbn [rev]. rewrite <- !app_assoc. reflexivity.
    + cbn. intros [= <- <-]. exists 1%nat. split; [reflexivity|lia].
    + destruct e as [m|]; cbn; intros [= <- <-]; exists 1%nat;
        (split; [reflexivity|lia]).
    + cbn. intros [= <- <-]. exists 1%nat. split; [reflexivity|lia].
    + intros [= <- <-]. exists 1%nat. split; [reflexivity|lia].
Qed.

(** The loop never lets a foreign value through: what it throws is a
    classified error carrying the flag of its kind and status. *)
Lemma retryLoop_throws n :
  forall attempt lastError l t l',
    Z.to_nat (maxRetries + 1 - attempt) = n ->
    (forall e, lastError = Some e -> thrownWell e) ->
    loop attempt lastError l = (Throw t, l') ->
    exists g, t = ThrowGroq g /\ wellClassified g.
Proof.
  induction n as [|n IH]; intros attempt lastError l t l' Hn Hwell;
    rewrite retryLoop_step; destruct (Z_le_dec attempt maxRetries) as [Hle|Hgt];
    try lia.
  - destruct (afterLoop_throws lastError l Hwell) as (g & -> & Hg).
    intros [= <- _]. eauto.
  - destruct (iteration_cases attempt l) as (c & l1 & -> & Hc).
    destruct Hc as [g Hf Hr Hne|g Hf Hr|r0 e Hf Hok Hj|r0 data g Hf Hok Hj Hs Hty Hre Hst|r0 data Hf Hok Hj Hs].
    + intros H. eapply IH; [| |exact H]; [lia|].
      intros e [= <-]. cbn. eapply wellClassified_classifiedFailure; eassumption.
    + cbn. intros [= <- _]. eexists; split; [reflexivity|].
      eapply wellClassified_classifiedFailure; eassumption.
    + destruct e as [m|]; cbn; intros [= <- _]; eexists; split; reflexivity.
    + cbn. intros [= <- _]. eexists; split; [reflexivity|].
      unfold wellClassified. rewrite Hre, Hty. reflexivity.
    + discriminate.
Qed.

(** An attempt that fails with an error that is not retriable ends the loop
    with that error. *)
Lemma retryLoop_not_retriable attempt lastError l g :
  attempt <= maxRetries ->
  classifiedFailure timeoutMs (fetch env (fetchCount l)) = Some g ->
  retriable g = false ->
  loop attempt lastError l = (Throw (ThrowGroq g), f :: l).
Proof.
  intros Hle Hf Hr. rewrite retryLoop_step.
  destruct (Z_le_dec attempt maxRetries); [|lia].
  destruct (iteration_cases attempt l) as (c & l1 & -> & Hc).
  destruct Hc as [g' Hf' Hr' Hne|g' Hf' Hr'|r0 e Hf' Hok Hj|r0 data g' Hf' Hok Hj Hs|r0 data Hf' Hok Hj Hs].
  - congruence.
  - rewrite Hf in Hf'. injection Hf' as <-. reflexivity.
  - rewrite Hf' in Hf. cbn in Hf. rewrite Hok in Hf. discriminate.
  - rewrite Hf' in Hf. cbn in Hf. rewrite Hok in Hf. discriminate.
  - rewrite Hf' in Hf. cbn in Hf. rewrite Hok in Hf. discriminate.
Qed.

(** An attempt whose response has a success status and a body of the right
    shape ends the loop with that body. *)
Lemma retryLoop_success attempt lastError l r data :
  attempt <= maxRetries ->
  fetch env (fetchCount l) = FetchResolves r -> res_ok r = true ->
  res_json r = BodyJson data -> invalidShape data = false ->
  loop attempt lastError l = (Ok data, f :: l).
Proof.
  intros Hle Hf Hok Hj Hs. rewrite retryLoop_step.
  destruct (Z_le_dec attempt maxRetries); [|lia].
  destruct (iteration_cases attempt l) as (c & l1 & -> & Hc).
  destruct Hc as [g' Hf' Hr' Hne|g' Hf' Hr'|r0 e Hf' Hok' Hj'|r0 data' g' Hf' Hok' Hj' Hs'|r0 data' Hf' Hok' Hj' Hs'].
  - rewrite Hf in Hf'. cbn in Hf'. rewrite Hok in Hf'. discriminate.
  - rewrite Hf in Hf'. cbn in Hf'. rewrite Hok in Hf'. discriminate.
  - congruence.
  - congruence.
  - rewrite Hf in Hf'. injection Hf' as <-. rewrite Hj in Hj'. injection Hj' as <-.
    reflexivity.
Qed.

(** When every call of [fetch] fails with a retriable error, the loop runs
    to its last attempt and throws the error classified there. *)
Lemma retryLoop_always_retriable n :
  (forall k, exists g, classifiedFailure timeoutMs (fetch env k) = Some g
                       /\ retriable g = true) ->
  forall attempt lastError l,
    Z.to_nat (maxRetries - attempt) = n -> attempt <= maxRetries -> 0 <= attempt ->
    exists g,
      loop attempt lastError l =
        (Throw (ThrowGroq g), rev (retryHistory f (Z.to_nat attempt) (S n)) ++ l)
      /\ classifiedFailure timeoutMs (fetch env (fetchCount l + n)) = Some g.
Proof.
  intros Hall. induction n as [|n IH]; intros attempt lastError l Hn Hle Hpos;
    rewrite retryLoop_step; (destruct (Z_le_dec attempt maxRetries); [|lia]);
    destruct (iteration_cases attempt l) as (c & l1 & -> & Hc);
    destruct (Hall (fetchCount l)) as (g0 & Hg0 & Hr0);
    destruct Hc as [g Hf Hr Hne|g Hf Hr|r0 e Hf Hok Hj|r0 data g Hf Hok Hj Hs|r0 data Hf Hok Hj Hs];
    try (rewrite Hf in Hg0; cbn in Hg0; rewrite Hok in Hg0; discriminate).
  - lia.
  - cbn. exists g. split; [reflexivity|]. rewrite Nat.add_0_r. exact Hf.
  - destruct (IH (attempt + 1) (Some (ThrowGroq g)) (ESleep (backoffMs attempt) :: f :: l))
      as (g' & -> & Hg'); [lia|lia|lia|].
    exists g'. split.
    + rewrite retryHistory_step.
      replace (S (Z.to_nat attempt)) with (Z.to_nat (attempt + 1)) by lia.
      rewrite <- backoffMs_schedule, Z2Nat.id by lia.
      cbn [rev]. rewrite <- !app_assoc. reflexivity.
    + rewrite fetchCount_sleep, fetchCount_fetch in Hg'.
      replace (fetchCount l + S n)%nat with (S (fetchCount l) + n)%nat by lia. exact Hg'.
  - destruct Hr as [Hr|Hr]; [congruence|lia].
Qed.

End LoopFacts.

(** ** The transport client *)

Lemma createGroqChatCompletion_unconfigured env request options l :
  GROQ_API_KEY env = None \/ GROQ_API_KEY env = Some [] ->
  createGroqChatCompletion env request options l = (Throw (ThrowGroq configError), l).
Proof.
  unfold createGroqChatCompletion, bind, getApiKey.
  intros [-> | ->]; reflexivity.
Qed.

Lemma createGroqChatCompletion_configured env request options l c k :
  GROQ_API_KEY env = Some (c :: k) ->
  createGroqChatCompletion env request options l =
  retryLoop env completionsUrl (requestInit (c :: k) (requestBody request))
    (timeoutMsOf options) (maxRetriesOf options) 0 None l.
Proof.
  unfold createGroqChatCompletion, bind, getApiKey. intros ->. reflexivity.
Qed.

(** The key is either missing (or empty) or a string with a first code
    unit. *)
Lemma key_cases env :
  (GROQ_API_KEY env = None \/ GROQ_API_KEY env = Some []) \/ configured env.
Proof.
  unfold configured. destruct (GROQ_API_KEY env) as [[|c k]|]; eauto.
Qed.

(** The log of a call of the client from the log [l]. *)
Lemma createGroqChatCompletion_history env request options l r l' :
  createGroqChatCompletion env request options l = (r, l') ->
  exists f k,
    isFetch f = true
    /\ l' = rev (retryHistory f 0 k) ++ l
    /\ Z.of_nat k <= Z.max 0 (maxRetriesOf options + 1).
Proof.
  destruct (key_cases env) as [Hno|(c & k & Hkey)].
  - rewrite createGroqChatCompletion_unconfigured by exact Hno.
    intros [= _ <-].
    exists (EFetch [] (requestInit [] (requestBody request)) 0), O.
    split; [reflexivity|]. split; [reflexivity|]. lia.
  - rewrite (createGroqChatCompletion_configured _ _ _ _ _ _ Hkey).
    intros H. eapply retryLoop_history in H; [|reflexivity|lia].
    destruct H as (n & -> & _ & Hn).
    exists (EFetch completionsUrl (requestInit (c :: k) (requestBody request))
                   (timeoutMsOf options)), n.
    split; [reflexivity|]. split; [reflexivity|].
    rewrite Z.sub_0_r in Hn. exact Hn.
Qed.

Lemma createGroqChatCompletion_throws env request options l t l' :
  createGroqChatCompletion env request options l = (Throw t, l') ->
  exists g, t = ThrowGroq g /\ wellClassified g.
Proof.
  destruct (key_cases env) as [Hno|(c & k & Hkey)].
  - rewrite createGroqChatCompletion_unconfigured by exact Hno.
    intros [= <- _]. exists configError. split; reflexivity.
  - rewrite (createGroqChatCompletion_configured _ _ _ _ _ _ Hkey).
    intros H. eapply retryLoop_throws in H; [exact H|reflexivity|discriminate].
Qed.

Lemma latest_retryHistory f i k :
  match rev (retryHistory f i k) with
  | [] => k = O
  | e :: _ => e = f
  end.
Proof.
  revert i. induction k as [|[|k] IH]; intros i; [reflexivity|reflexivity|].
  rewrite retryHistory_step. cbn [rev]. specialize (IH (S i)).
  destruct (rev (retryHistory f (S i) (S k))) as [|e rest]; [discriminate|].
  exact IH.
Qed.

Lemma sleepCount_rev l : sleepCount (rev l) = sleepCount l.
Proof.
  unfold sleepCount. induction l as [|e l IH]; [reflexivity|].
  cbn [rev filter]. rewrite filter_app, length_app, IH.
  destruct e; cbn [isFetch negb filter List.length]; lia.
Qed.

Lemma run_history env request options :
  exists f k,
    isFetch f = true
    /\ snd (run (createGroqChatCompletion env request options)) = rev (retryHistory f 0 k)
    /\ fetchCount (snd (run (createGroqChatCompletion env request options))) = k
    /\ Z.of_nat k <= Z.max 0 (maxRetriesOf options + 1).
Proof.
  unfold run.
  destruct (createGroqChatCompletion env request options []) as [r l'] eqn:H.
  apply createGroqChatCompletion_history in H.
  destruct H as (f & k & Hf & -> & Hk).
  exists f, k. rewrite app_nil_r. cbn [snd].
  split; [exact Hf|]. split; [reflexivity|]. split; [|exact Hk].
  destruct f as [u i t|ms]; [|discriminate].
  rewrite fetchCount_rev. apply fetchCount_retryHistory.
Qed.

(** C2: the client makes at most [maxRetries + 1] attempts, for a retry
    budget [maxRetries] from -1 on (a budget below -1 makes the bound
    negative, and the loop is not entered); with [maxRetries = 2] and a
    transport whose every attempt fails with a retriable error, [fetch] is
    called exactly 3 times and the error thrown to the caller is the one
    classified on the last of them (the call of index 2). *)
Theorem retry_bound env request options :
  -1 <= maxRetriesOf options ->
  let res := run (createGroqChatCompletion env request options) in
  Z.of_nat (fetchCount (snd res)) <= maxRetriesOf options + 1
  /\ (maxRetriesOf options = 2 ->
      configured env ->
      (forall k, exists g,
          classifiedFailure (timeoutMsOf options) (fetch env k) = Some g
          /\ retriable g = true) ->
      fetchCount (snd res) = 3%nat
      /\ exists g,
          classifiedFailure (timeoutMsOf options) (fetch env 2) = Some g
          /\ fst res = Throw (ThrowGroq g)).
Proof.
  intros Hpos. cbv zeta. split.
  - destruct (run_history env request options) as (f & k & _ & _ & -> & Hk). lia.
  - intros Hmax (c & key & Hkey) Hall. unfold run.
    rewrite (createGroqChatCompletion_configured _ _ _ _ _ _ Hkey), Hmax.
    destruct (retryLoop_always_retriable env completionsUrl
                (requestInit (c :: key) (requestBody request))
                (timeoutMsOf options) 2 2 Hall 0 None [])
      as (g & -> & Hg); [reflexivity|lia|lia|].
    cbn [fst snd]. split.
    + rewrite app_nil_r, fetchCount_rev. apply fetchCount_retryHistory.
    + exists g. split; [exact Hg|reflexivity].
Qed.

Lemma retry_bound_witness :
  let res := run (createGroqChatCompletion unavailableEnv someRequest None) in
  Z.of_nat (fetchCount (snd res)) <= 3
  /\ fetchCount (snd res) = 3%nat
  /\ fst res = Throw (ThrowGroq (classifyHttpError 503 JNull)).
Proof.
  assert (Hpos : -1 <= maxRetriesOf None)
    by (unfold maxRetriesOf, DEFAULT_MAX_RETRIES; lia).
  destruct (retry_bound unavailableEnv someRequest None Hpos) as [Hle Hlast].
  split; [exact Hle|].
  destruct Hlast as [Hcount (g & Hg & Hres)].
  - reflexivity.
  - exists 103%N, (tail (js "gsk_test")). reflexivity.
  - intros k. exists (classifyHttpError 503 JNull). split; reflexivity.
  - split; [exact Hcount|].
    cbn in Hg. injection Hg as <-. exact Hres.
Defined.

(** C3: in every run of the client the log is a sequence of attempts with
    exactly one sleep between two consecutive attempts and none after the
    last; the sleep after the attempt of index [i] lasts 250 ms for [i = 0],
    500 ms for [i = 1] and 1000 ms for every [i >= 2], which is what the
    table lookup clamped to its last entry yields. *)
Theorem backoff_between_attempts env request options :
  let l := snd (run (createGroqChatCompletion env request options)) in
  (exists f, isFetch f = true /\ history l = retryHistory f 0 (fetchCount l))
  /\ sleepCount l = Nat.pred (fetchCount l)
  /\ match l with
     | [] => True
     | latest :: _ => isFetch latest = true
     end
  /\ (forall i, backoffMs (Z.of_nat i) = scheduleMs i)
  /\ scheduleMs 0 = 250 /\ scheduleMs 1 = 500
  /\ (forall i, scheduleMs (S (S i)) = 1000).
Proof.
  cbv zeta.
  destruct (run_history env request options) as (f & k & Hf & Hl & Hk & _).
  rewrite Hk. rewrite Hl.
  split; [|split; [|split; [|split; [|repeat split]]]].
  - exists f. split; [exact Hf|]. unfold history. apply rev_involutive.
  - rewrite sleepCount_rev. destruct f as [u i t|ms]; [|discriminate].
    apply sleepCount_retryHistory.
  - pose proof (latest_retryHistory f 0 k) as H.
    destruct (rev (retryHistory f 0 k)) as [|e rest]; [exact I|].
    rewrite H. exact Hf.
  - apply backoffMs_schedule.
Qed.

(** ** The orchestrator *)

Lemma generateGroqResponse_unconfigured env prompt l :
  GROQ_API_KEY env = None \/ GROQ_API_KEY env = Some [] ->
  generateGroqResponse env prompt l = (Throw (ThrowGroq configError), l).
Proof.
  intros H. unfold generateGroqResponse, bind.
  rewrite createGroqChatCompletion_unconfigured by exact H. reflexivity.
Qed.

(** What the orchestrator makes of the outcome of the client. *)
Lemma generateGroqResponse_cases env prompt l :
  match createGroqChatCompletion env (chatRequest prompt) None l with
  | (Throw t, l') => generateGroqResponse env prompt l = (Throw t, l')
  | (Ok completion, l') =>
      if falsy (extractText completion) then
        generateGroqResponse env prompt l =
          (Throw (ThrowGroq (emptyResponseError completion)), l')
      else
        match extractText completion with
        | JStr s => generateGroqResponse env prompt l = (Ok (JsString.trim s), l')
        | _ => exists m, generateGroqResponse env prompt l =
                           (Throw (ThrowForeign (ForeignError m)), l')
        end
  end.
Proof.
  unfold generateGroqResponse, bind.
  destruct (createGroqChatCompletion env (chatRequest prompt) None l) as [[completion|t] l'];
    [|reflexivity].
  destruct (falsy (extractText completion)) eqn:Hf; [reflexivity|].
  destruct (extractText completion); try reflexivity; eexists; reflexivity.
Qed.

Lemma generateGroqResponse_throws env prompt l t l' :
  generateGroqResponse env prompt l = (Throw t, l') -> thrownWell t.
Proof.
  pose proof (generateGroqResponse_cases env prompt l) as H.
  destruct (createGroqChatCompletion env (chatRequest prompt) None l) as [[completion|t0] l0] eqn:Hc.
  - destruct (falsy (extractText completion)).
    + rewrite H. intros [= <- _]. reflexivity.
    + destruct (extractText completion);
        try (destruct H as (m & ->); intros [= <- _]; exact I).
      rewrite H. discriminate.
  - rewrite H. intros [= <- _].
    apply createGroqChatCompletion_throws in Hc. destruct Hc as (g & -> & Hg). exact Hg.
Qed.

Lemma CONFIG_not_retriable g : wellClassified g -> type g = CONFIG -> retriable g = false.
Proof. unfold wellClassified. intros -> ->. reflexivity. Qed.

(** C4: without a credential the orchestrator fails with a CONFIG error
    that is not retriable and the log stays empty: no call of [fetch], no
    sleep. With a credential, when the first attempt is classified CONFIG,
    the client throws that error after exactly one call of [fetch] and no
    sleep, whatever the retry budget (not negative, so that a first attempt
    is made). *)
Theorem config_never_retried :
  (forall env prompt,
      GROQ_API_KEY env = None \/ GROQ_API_KEY env = Some [] ->
      exists g,
        run (generateGroqResponse env prompt) = (Throw (ThrowGroq g), [])
        /\ type g = CONFIG /\ retriable g = false)
  /\ (forall env request options g,
         configured env ->
         0 <= maxRetriesOf options ->
         classifiedFailure (timeoutMsOf options) (fetch env 0) = Some g ->
         type g = CONFIG ->
         let res := run (createGroqChatCompletion env request options) in
         fst res = Throw (ThrowGroq g)
         /\ fetchCount (snd res) = 1%nat
         /\ sleepCount (snd res) = 0%nat).
Proof.
  split.
  - intros env prompt H. exists configError. unfold run.
    rewrite generateGroqResponse_unconfigured by exact H. repeat split.
  - intros env request options g (c & k & Hkey) Hpos Hg Hty. cbv zeta. unfold run.
    rewrite (createGroqChatCompletion_configured _ _ _ _ _ _ Hkey).
    rewrite (retryLoop_not_retriable _ _ _ _ _ 0 None [] g Hpos Hg).
    + repeat split.
    + apply CONFIG_not_retriable; [|exact Hty].
      eapply wellClassified_classifiedFailure. exact Hg.
Qed.

Lemma config_never_retried_witness :
  (exists g,
      run (generateGroqResponse noKeyEnv (js "hi")) = (Throw (ThrowGroq g), [])
      /\ type g = CONFIG /\ retriable g = false)
  /\ (let res := run (createGroqChatCompletion unauthorizedEnv someRequest (withRetries 5)) in
      fst res = Throw (ThrowGroq (classifyHttpError 401 JNull))
      /\ fetchCount (snd res) = 1%nat
      /\ sleepCount (snd res) = 0%nat).
Proof.
  split.
  - apply (proj1 config_never_retried noKeyEnv (js "hi")). left. reflexivity.
  - apply (proj2 config_never_retried unauthorizedEnv someRequest (withRetries 5)).
    + exists 103%N, (tail (js "gsk_test")). reflexivity.
    + cbn. lia.
    + reflexivity.
    + reflexivity.
Defined.

(** C9: the retriable flag of every classified error the program builds is
    the function [retriableOf] of its kind and status: the errors of
    [classifyHttpError], of a missing credential, of a timeout, of a network
    failure and of an empty answer, and every error thrown by
    [fetchWithTimeout], by the client (which covers the errors of a
    malformed response and the UNKNOWN wrapper) and by the orchestrator.
    [retriableOf] is true for TIMEOUT, NETWORK and RATE_LIMIT, true for
    UPSTREAM exactly when the status is in 500..599, and false for CONFIG,
    INVALID_RESPONSE and UNKNOWN. *)
Theorem retriable_determined_by_kind_and_status :
  (forall s d, wellClassified (classifyHttpError s d))
  /\ wellClassified configError
  /\ (forall t, wellClassified (timeoutError t))
  /\ (forall e, wellClassified (networkError e))
  /\ (forall completion, wellClassified (emptyResponseError completion))
  /\ (forall env u i t l g l',
         fetchWithTimeout env u i t l = (Throw (ThrowGroq g), l') -> wellClassified g)
  /\ (forall env request options l t l',
         createGroqChatCompletion env request options l = (Throw t, l') ->
         exists g, t = ThrowGroq g /\ wellClassified g)
  /\ (forall env prompt l t l',
         generateGroqResponse env prompt l = (Throw t, l') -> thrownWell t)
  /\ (forall k st,
         retriableOf k st = true <->
         k = TIMEOUT \/ k = NETWORK \/ k = RATE_LIMIT
         \/ (k = UPSTREAM /\ exists s, st = Some s /\ 500 <= s <= 599)).
Proof.
  split; [intros; apply wellClassified_classifyHttpError; exact 0|].
  split; [reflexivity|]. split; [reflexivity|]. split; [reflexivity|].
  split; [reflexivity|].
  split.
  { intros env u i t l g l'. unfold fetchWithTimeout, callFetch, bind.
    destruct (fetch env (fetchCount l)); cbn; intros [= <- _]; reflexivity. }
  split; [apply createGroqChatCompletion_throws|].
  split; [apply generateGroqResponse_throws|].
  intros k st. split.
  - destruct k; cbn; try discriminate; auto.
    destruct st as [s|]; [|discriminate].
    intros H. apply andb_true_iff in H. destruct H as [H1 H2].
    right; right; right. split; [reflexivity|]. exists s. split; [reflexivity|lia].
  - intros [->|[->|[->|[-> (s & -> & Hs)]]]]; try reflexivity.
    cbn. apply andb_true_iff. split; lia.
Qed.

Lemma retriable_determined_witness :
  exists g,
    fst (run (generateGroqResponse notFoundEnv (js "hi"))) = Throw (ThrowGroq g)
    /\ type g = UPSTREAM /\ status g = Some 404
    /\ retriable g = retriableOf UPSTREAM (Some 404).
Proof.
  destruct retriable_determined_by_kind_and_status
    as (_ & _ & _ & _ & _ & _ & _ & Horch & _).
  exists (classifyHttpError 404 JNull).
  split; [reflexivity|]. split; [reflexivity|]. split; [reflexivity|].
  exact (Horch notFoundEnv (js "hi") [] (ThrowGroq (classifyHttpError 404 JNull))
           _ eq_refl).
Defined.

(** ** The endpoint *)

Lemma POST_cases env req l :
  POST env req l =
  match req with
  | BodyUnreadable e =>
      (Ok {| http_payload := PayloadError (errorMessage (ThrowForeign e));
             http_status := 500 |}, l)
  | BodyObject None | BodyObject (Some []) => (Ok messageRequired, l)
  | BodyObject (Some (c :: m)) =>
      match generateGroqResponse env (PROMPT_PREFIX ++ c :: m) l with
      | (Ok text, l') =>
          (Ok {| http_payload := PayloadResponse (cleanResponse text);
                 http_status := 200 |}, l')
      | (Throw t, l') =>
          (Ok {| http_payload := PayloadError (errorMessage t);
                 http_status := errorStatus t |}, l')
      end
  | BodyUntyped v converted =>
      if falsy v then (Ok messageRequired, l)
      else
        match converted with
        | ConvertsTo shown =>
            match generateGroqResponse env (PROMPT_PREFIX ++ shown) l with
            | (Ok text, l') =>
                (Ok {| http_payload := PayloadResponse (cleanResponse text);
                       http_status := 200 |}, l')
            | (Throw t, l') =>
                (Ok {| http_payload := PayloadError (errorMessage t);
                       http_status := errorStatus t |}, l')
            end
        | ConvertFails typeError =>
            (Ok {| http_payload := PayloadError typeError; http_status := 500 |}, l)
        end
  end.
Proof.
  unfold POST, tryCatch, bind, readMessage, messageFalsy, templateText.
  destruct req as [e|[[|c m]|]|v [shown|typeError]]; try reflexivity.
  - cbv beta iota delta [ret falsy].
    destruct (generateGroqResponse env (PROMPT_PREFIX ++ c :: m) l) as [[text|t] l'];
      reflexivity.
  - cbv beta iota delta [ret]. destruct (falsy v); [reflexivity|].
    destruct (generateGroqResponse env (PROMPT_PREFIX ++ shown) l) as [[text|t] l'];
      reflexivity.
  - cbv beta iota delta [ret throw]. destruct (falsy v); reflexivity.
Qed.

Lemma errorStatus_503 t :
  errorStatus t = 503 <-> exists g, t = ThrowGroq g /\ unavailableKind (type g).
Proof.
  unfold unavailableKind. split.
  - destruct t as [g|e]; cbn; [|discriminate].
    intros H. exists g. split; [reflexivity|].
    destruct (type g); try discriminate; auto.
  - intros (g & -> & [H|[H|H]]); cbn; rewrite H; reflexivity.
Qed.

Lemma errorStatus_500 t :
  errorStatus t = 500 <-> ~ exists g, t = ThrowGroq g /\ unavailableKind (type g).
Proof.
  rewrite <- errorStatus_503. split.
  - intros ->. discriminate.
  - destruct t as [g|e]; cbn; [|reflexivity].
    destruct (type g); intros H; try reflexivity; exfalso; apply H; reflexivity.
Qed.

Lemma default_budget : 0 <= maxRetriesOf None.
Proof. unfold maxRetriesOf, DEFAULT_MAX_RETRIES. lia. Qed.

(** An answer that is absent, [null] or the empty string is refused with an
    INVALID_RESPONSE error that is not retriable. *)
Lemma empty_answer_refused env prompt l completion l' :
  createGroqChatCompletion env (chatRequest prompt) None l = (Ok completion, l') ->
  falsy (extractText completion) = true ->
  generateGroqResponse env prompt l = (Throw (ThrowGroq (emptyResponseError completion)), l')
  /\ type (emptyResponseError completion) = INVALID_RESPONSE
  /\ retriable (emptyResponseError completion) = false.
Proof.
  intros Hc Hf. pose proof (generateGroqResponse_cases env prompt l) as H.
  rewrite Hc, Hf in H. repeat split. exact H.
Qed.

(** C5, at an answer made of three blanks: the content is not empty before
    trimming, so the orchestrator does not refuse it; it returns the trimmed
    text, which is the empty string, and the endpoint replies 200 with an
    empty response. *)
Theorem blank_answer_returned :
  extractText (completionWith (js "   ")) = JStr (js "   ")
  /\ JsString.trim (js "   ") = []
  /\ fst (run (generateGroqResponse blankEnv (js "hi"))) = Ok []
  /\ fst (run (POST blankEnv (BodyObject (Some (js "hi"))))) =
     Ok {| http_payload := PayloadResponse []; http_status := 200 |}.
Proof. repeat split. Qed.

(** C6, as the code has it: for the prompt "What is Bitcoin?" and a
    transport whose first response has a success status and the body
    [{choices: [{message: {content: "Bitcoin is *digital* **gold**"}}]}],
    the endpoint replies 200 with the text in which the double markers are
    gone and each of the two single markers is a bullet,
    "Bitcoin is •digital• gold", after one call of [fetch]. *)
Theorem bitcoin_end_to_end env r :
  configured env ->
  fetch env 0 = FetchResolves r ->
  res_ok r = true ->
  res_json r = BodyJson (completionWith (js "Bitcoin is *digital* **gold**")) ->
  fst (run (POST env bitcoinRequest)) =
    Ok {| http_payload := PayloadResponse bitcoinCleaned; http_status := 200 |}
  /\ fetchCount (snd (run (POST env bitcoinRequest))) = 1%nat.
Proof.
  intros (c & k & Hkey) Hf Hok Hj. unfold run, bitcoinRequest.
  change (js "What is Bitcoin?") with (87%N :: js "hat is Bitcoin?").
  rewrite POST_cases.
  pose proof (generateGroqResponse_cases env (PROMPT_PREFIX ++ 87%N :: js "hat is Bitcoin?") [])
    as H.
  rewrite (createGroqChatCompletion_configured _ _ _ _ _ _ Hkey) in H.
  rewrite (retryLoop_success _ _ _ _ _ 0 None [] r _ default_budget Hf Hok Hj eq_refl) in H.
  change (falsy (extractText (completionWith (js "Bitcoin is *digital* **gold**"))))
    with false in H.
  change (extractText (completionWith (js "Bitcoin is *digital* **gold**")))
    with (JStr (js "Bitcoin is *digital* **gold**")) in H.
  cbv beta iota in H. rewrite H. split; reflexivity.
Qed.

Lemma bitcoin_end_to_end_witness :
  fst (run (POST bitcoinEnv bitcoinRequest)) =
    Ok {| http_payload := PayloadResponse bitcoinCleaned; http_status := 200 |}
  /\ fetchCount (snd (run (POST bitcoinEnv bitcoinRequest))) = 1%nat.
Proof.
  apply (bitcoin_end_to_end bitcoinEnv
           {| res_status := 200;
              res_json := BodyJson (completionWith (js "Bitcoin is *digital* **gold**")) |}).
  - exists 103%N, (tail (js "gsk_test")). reflexivity.
  - reflexivity.
  - reflexivity.
  - reflexivity.
Defined.

(** C6 as stated fails: the reply to the Bitcoin example is not the text
    "Bitcoin is •digital gold" of the specification. *)
Lemma bitcoin_not_as_expected :
  fst (run (POST bitcoinEnv bitcoinRequest)) <>
    Ok {| http_payload := PayloadResponse bitcoinExpected; http_status := 200 |}.
Proof. intros H. vm_compute in H. discriminate H. Qed.


(** The falsy messages that are not strings: each is answered with 400 and
    the orchestrator is not called, whatever text goes with the value. *)
Lemma falsy_messages_rejected env converted :
  run (POST env (BodyUntyped JNull converted)) = (Ok messageRequired, [])
  /\ run (POST env (BodyUntyped (JBool false) converted)) = (Ok messageRequired, [])
  /\ run (POST env (BodyUntyped (JNum 0) converted)) = (Ok messageRequired, [])
  /\ run (POST env (BodyUntyped (JStr []) converted)) = (Ok messageRequired, []).
Proof. unfold run. rewrite !POST_cases. repeat split. Qed.


Lemma unavailableKind_by_flag g :
  wellClassified g ->
  unavailableKind (type g) <->
  (retriable g = true /\ type g <> NETWORK) \/ (retriable g = false /\ type g = UPSTREAM).
Proof.
  unfold wellClassified, unavailableKind.
  destruct (type g), (retriable g); cbn; intros Hw; try discriminate Hw;
    intuition congruence.
Qed.

(** C8, as the code has it: a classified error the orchestrator throws is
    answered with its message and with the status 503 exactly when its kind
    is RATE_LIMIT, TIMEOUT or UPSTREAM, and 500 otherwise. In terms of the
    retriable flag: 503 goes to the retriable errors other than NETWORK and
    to the UPSTREAM errors that are not retriable; a retriable NETWORK error
    is answered with 500. *)
Theorem status_by_kind env c m g l :
  run (generateGroqResponse env (PROMPT_PREFIX ++ c :: m)) = (Throw (ThrowGroq g), l) ->
  exists resp,
    run (POST env (BodyObject (Some (c :: m)))) = (Ok resp, l)
    /\ http_payload resp = PayloadError (message g)
    /\ (http_status resp = 503 <-> unavailableKind (type g))
    /\ (http_status resp = 500 <-> ~ unavailableKind (type g))
    /\ (http_status resp = 503 <->
        (retriable g = true /\ type g <> NETWORK)
        \/ (retriable g = false /\ type g = UPSTREAM)).
Proof.
  unfold run. intros H.
  pose proof (generateGroqResponse_throws _ _ _ _ _ H) as Hwell. cbn in Hwell.
  rewrite POST_cases, H.
  eexists. split; [reflexivity|]. cbn [http_payload http_status errorMessage].
  split; [reflexivity|].
  assert (H503 : errorStatus (ThrowGroq g) = 503 <-> unavailableKind (type g)).
  { rewrite errorStatus_503. split.
    - intros (g' & [= <-] & Hk). exact Hk.
    - intros Hk. exists g. split; [reflexivity|exact Hk]. }
  split; [exact H503|]. split.
  - rewrite errorStatus_500. split.
    + intros Hn Hk. apply Hn. exists g. split; [reflexivity|exact Hk].
    + intros Hn (g' & [= <-] & Hk). exact (Hn Hk).
  - rewrite H503. apply unavailableKind_by_flag. exact Hwell.
Qed.

Lemma status_by_kind_witness :
  exists resp,
    fst (run (POST unavailableEnv (BodyObject (Some (js "hi"))))) = Ok resp
    /\ http_payload resp = PayloadError (js "Groq upstream error (503)")
    /\ http_status resp = 503.
Proof.
  destruct (status_by_kind unavailableEnv 104%N (js "i")
              (classifyHttpError 503 JNull)
              (snd (run (generateGroqResponse unavailableEnv (PROMPT_PREFIX ++ js "hi")))))
    as (resp & Hrun & Hpay & H503 & _).
  - reflexivity.
  - exists resp. split; [|split].
    + exact (f_equal fst Hrun).
    + exact Hpay.
    + apply H503. right. right. reflexivity.
Defined.

(** C8 as stated fails in both directions: when the host cannot be reached
    the error thrown is retriable and the reply is 500; when the upstream
    answers 404 the error is not retriable and the reply is 503. *)
Lemma status_not_by_retriable :
  (exists g,
      fst (run (generateGroqResponse networkDownEnv (PROMPT_PREFIX ++ js "hi")))
        = Throw (ThrowGroq g)
      /\ retriable g = true
      /\ fst (run (POST networkDownEnv (BodyObject (Some (js "hi"))))) =
         Ok {| http_payload := PayloadError (js "fetch failed"); http_status := 500 |})
  /\ (exists g,
      fst (run (generateGroqResponse notFoundEnv (PROMPT_PREFIX ++ js "hi")))
        = Throw (ThrowGroq g)
      /\ retriable g = false
      /\ fst (run (POST notFoundEnv (BodyObject (Some (js "hi"))))) =
         Ok {| http_payload := PayloadError (js "Groq request failed (404)");
               http_status := 503 |}).
Proof.
  split; eexists; (split; [vm_compute; reflexivity|]); split; reflexivity.
Qed.

(** C10: a message field that is present and empty is answered exactly as
    an absent one, with status 400 and the body of the missing message, and
    the log is left as it was: the orchestrator is not called and no call of
    [fetch] is made. *)
Theorem empty_message_rejected env l :
  POST env (BodyObject (Some [])) l = (Ok messageRequired, l)
  /\ POST env (BodyObject (Some [])) l = POST env (BodyObject None) l
  /\ http_status messageRequired = 400
  /\ http_payload messageRequired = PayloadError (js "Message is required")
  /\ fetchCount (snd (run (POST env (BodyObject (Some []))))) = 0%nat.
Proof.
  unfold run. rewrite !POST_cases. repeat split.
Qed.

(** ** Further properties of the retry loop *)

Lemma retryHistory_last f i k :
  retryHistory f i (S k) = sleptAttempts f i k ++ [f].
Proof.
  revert i. induction k as [|k IH]; intros i; [reflexivity|].
  rewrite retryHistory_step, IH. reflexivity.
Qed.

Lemma fetchCount_sleptAttempts u i t j k l :
  fetchCount (rev (sleptAttempts (EFetch u i t) j k) ++ l) = (fetchCount l + k)%nat.
Proof.
  revert j l. induction k as [|k IH]; intros j l; [cbn [sleptAttempts rev app]; lia|].
  cbn [sleptAttempts rev]. rewrite <- !app_assoc. cbn [app].
  rewrite IH, fetchCount_sleep, fetchCount_fetch. lia.
Qed.

Lemma sleepTotal_app l1 l2 : sleepTotal (l1 ++ l2) = sleepTotal l1 + sleepTotal l2.
Proof.
  induction l1 as [|[u i t|ms] l1 IH]; cbn [app sleepTotal]; lia.
Qed.

Lemma sleepTotal_rev l : sleepTotal (rev l) = sleepTotal l.
Proof.
  induction l as [|[u i t|ms] l IH]; cbn [rev]; [reflexivity| |];
    rewrite sleepTotal_app, IH; cbn [sleepTotal]; lia.
Qed.

Lemma scheduleMs_bounds i : 250 <= scheduleMs i <= 1000.
Proof. destruct i as [|[|i]]; cbn; lia. Qed.

Lemma sleepTotal_retryHistory u i t j k :
  0 <= sleepTotal (retryHistory (EFetch u i t) j k) <= 1000 * Z.of_nat (Nat.pred k).
Proof.
  revert j. induction k as [|[|k] IH]; intros j; [cbn; lia|cbn; lia|].
  rewrite retryHistory_step. cbn [sleepTotal].
  specialize (IH (S j)). pose proof (scheduleMs_bounds j).
  cbn [Nat.pred] in *. lia.
Qed.

Section LoopMore.

Variables (env : Env) (url : jsstring) (init : RequestInit) (timeoutMs maxRetries : Z).

Local Abbreviation f := (EFetch url init timeoutMs).
Local Abbreviation loop := (retryLoop env url init timeoutMs maxRetries).
Local Abbreviation body := (iteration env url init timeoutMs maxRetries).

(** A retriable failure with budget left is followed by its sleep and the
    next attempt. *)
Lemma retryLoop_retry attempt lastError l g :
  attempt < maxRetries ->
  classifiedFailure timeoutMs (fetch env (fetchCount l)) = Some g ->
  retriable g = true ->
  loop attempt lastError l =
  loop (attempt + 1) (Some (ThrowGroq g)) (ESleep (backoffMs attempt) :: f :: l).
Proof.
  intros Hlt Hf Hr. rewrite retryLoop_step.
  destruct (Z_le_dec attempt maxRetries); [|lia].
  destruct (iteration_cases env url init timeoutMs maxRetries attempt l)
    as (c & l1 & -> & Hc).
  destruct Hc as [g' Hf' Hr' Hne|g' Hf' Hr'|r0 e Hf' Hok Hj|r0 data g' Hf' Hok Hj Hs|r0 data Hf' Hok Hj Hs];
    try (rewrite Hf' in Hf; cbn in Hf; rewrite Hok in Hf; discriminate).
  - rewrite Hf in Hf'. injection Hf' as <-. reflexivity.
  - rewrite Hf in Hf'. injection Hf' as <-. destruct Hr' as [Hr'|Hr']; [congruence|lia].
Qed.

(** [k] retriable failures in a row, with budget left after each, bring the
    loop to the attempt [k] places on. *)
Lemma retryLoop_retries k :
  forall attempt lastError l,
    0 <= attempt -> attempt + Z.of_nat k <= maxRetries ->
    (forall j, (j < k)%nat ->
       exists g, classifiedFailure timeoutMs (fetch env (fetchCount l + j)) = Some g
                 /\ retriable g = true) ->
    exists lastError',
      loop attempt lastError l =
      loop (attempt + Z.of_nat k) lastError'
           (rev (sleptAttempts f (Z.to_nat attempt) k) ++ l).
Proof.
  induction k as [|k IH]; intros attempt lastError l Hpos Hle Hall.
  - exists lastError. rewrite Z.add_0_r. reflexivity.
  - destruct (Hall O) as (g & Hg & Hr); [lia|]. rewrite Nat.add_0_r in Hg.
    rewrite (retryLoop_retry attempt lastError l g) by (try assumption; lia).
    destruct (IH (attempt + 1) (Some (ThrowGroq g)) (ESleep (backoffMs attempt) :: f :: l))
      as (e' & ->); [lia|lia| |].
    + intros j Hj. rewrite fetchCount_sleep, fetchCount_fetch.
      destruct (Hall (S j)) as (g' & Hg' & Hr'); [lia|].
      exists g'. split; [|exact Hr'].
      replace (S (fetchCount l) + j)%nat with (fetchCount l + S j)%nat by lia. exact Hg'.
    + exists e'. f_equal; [lia|].
      cbn [sleptAttempts rev]. rewrite <- !app_assoc. cbn [app].
      replace (S (Z.to_nat attempt)) with (Z.to_nat (attempt + 1)) by lia.
      rewrite <- backoffMs_schedule, Z2Nat.id by lia. reflexivity.
Qed.

(** What the loop returns passed the shape test. *)
Lemma retryLoop_returns n :
  forall attempt lastError l data l',
    Z.to_nat (maxRetries + 1 - attempt) = n ->
    loop attempt lastError l = (Ok data, l') -> invalidShape data = false.
Proof.
  induction n as [|n IH]; intros attempt lastError l data l' Hn;
    rewrite retryLoop_step; destruct (Z_le_dec attempt maxRetries) as [Hle|Hgt];
    try lia.
  - destruct lastError as [[?|[?|]]|]; discriminate.
  - destruct (iteration_cases env url init timeoutMs maxRetries attempt l)
      as (c & l1 & -> & Hc).
    destruct Hc as [g Hf Hr Hne|g Hf Hr|r0 e Hf Hok Hj|r0 d g Hf Hok Hj Hs|r0 d Hf Hok Hj Hs].
    + intros H. eapply IH; [|exact H]. lia.
    + discriminate.
    + destruct e; discriminate.
    + discriminate.
    + intros [= <- _]. exact Hs.
Qed.

(** With a negative budget the loop is not entered. *)
Lemma retryLoop_negative_budget l :
  maxRetries < 0 ->
  exists g, loop 0 None l = (Throw (ThrowGroq g), l)
            /\ type g = UNKNOWN /\ retriable g = false
            /\ message g = js "Unknown Groq error".
Proof.
  intros H. rewrite retryLoop_step. destruct (Z_le_dec 0 maxRetries); [lia|].
  eexists. split; [reflexivity|]. repeat split.
Qed.

(** A success status with a body that is not JSON ends the loop with an
    UNKNOWN error that carries the message of the parse error. *)
Lemma retryLoop_unreadable attempt lastError l r e :
  attempt <= maxRetries ->
  fetch env (fetchCount l) = FetchResolves r -> res_ok r = true ->
  res_json r = BodyRejects e ->
  exists g, loop attempt lastError l = (Throw (ThrowGroq g), f :: l)
            /\ type g = UNKNOWN /\ retriable g = false
            /\ message g = match e with
                           | ForeignError m => m
                           | ForeignValue => js "Unknown Groq error"
                           end.
Proof.
  intros Hle Hf Hok Hj. rewrite retryLoop_step.
  destruct (Z_le_dec attempt maxRetries); [|lia].
  destruct (iteration_cases env url init timeoutMs maxRetries attempt l)
    as (c & l1 & -> & Hc).
  destruct Hc as [g' Hf' Hr' Hne|g' Hf' Hr'|r0 e' Hf' Hok' Hj'|r0 d g' Hf' Hok' Hj' Hs'|r0 d Hf' Hok' Hj' Hs'];
    try (rewrite Hf in Hf'; cbn in Hf'; rewrite Hok in Hf'; discriminate).
  - rewrite Hf in Hf'. injection Hf' as <-. rewrite Hj in Hj'. injection Hj' as <-.
    destruct e; eexists; (split; [reflexivity|]); repeat split.
  - rewrite Hf in Hf'. injection Hf' as <-. congruence.
  - rewrite Hf in Hf'. injection Hf' as <-. congruence.
Qed.

(** A success status with a body of the wrong shape ends the loop with an
    INVALID_RESPONSE error that holds the body. *)
Lemma retryLoop_invalid attempt lastError l r data :
  attempt <= maxRetries ->
  fetch env (fetchCount l) = FetchResolves r -> res_ok r = true ->
  res_json r = BodyJson data -> invalidShape data = true ->
  exists g, loop attempt lastError l = (Throw (ThrowGroq g), f :: l)
            /\ type g = INVALID_RESPONSE /\ retriable g = false
            /\ details g = DetailsJson data.
Proof.
  intros Hle Hf Hok Hj Hs.
  rewrite retryLoop_step. destruct (Z_le_dec attempt maxRetries); [|lia].
  unfold iteration, tryCatch, tryBlock, fetchWithTimeout, callFetch, bind.
  rewrite Hf. cbn. rewrite Hok. cbn. unfold resJson. rewrite Hj. cbn. rewrite Hs. cbn.
  eexists. split; [reflexivity|]. repeat split.
Qed.

End LoopMore.

(** ** Further properties of the transport client *)

Lemma rev_retryHistory_last f i k :
  rev (retryHistory f i (S k)) = f :: rev (sleptAttempts f i k).
Proof. rewrite retryHistory_last, rev_app_distr. reflexivity. Qed.

(** After [k] retriable failures within the budget the client stands at the
    attempt of index [k], having made [k] calls of [fetch]. *)
Lemma client_after_retries env request options key k :
  GROQ_API_KEY env = Some key -> key <> [] ->
  Z.of_nat k <= maxRetriesOf options ->
  (forall j, (j < k)%nat ->
     exists g, classifiedFailure (timeoutMsOf options) (fetch env j) = Some g
               /\ retriable g = true) ->
  exists lastError,
    run (createGroqChatCompletion env request options) =
    retryLoop env completionsUrl (requestInit key (requestBody request))
      (timeoutMsOf options) (maxRetriesOf options) (Z.of_nat k) lastError
      (rev (sleptAttempts (fetchEvent key request options) 0 k))
    /\ fetchCount (rev (sleptAttempts (fetchEvent key request options) 0 k)) = k.
Proof.
  intros Hkey Hne Hk Hall. destruct key as [|c key]; [congruence|].
  unfold run. rewrite (createGroqChatCompletion_configured _ _ _ _ _ _ Hkey).
  destruct (retryLoop_retries env completionsUrl
              (requestInit (c :: key) (requestBody request))
              (timeoutMsOf options) (maxRetriesOf options) k 0 None [])
    as (e' & He'); [lia|lia|exact Hall|].
  exists e'. rewrite He', app_nil_r. split; [reflexivity|].
  unfold fetchEvent.
  rewrite <- (app_nil_r (rev _)), fetchCount_sleptAttempts. reflexivity.
Qed.

Lemma counts_of_run f k :
  isFetch f = true ->
  fetchCount (f :: rev (sleptAttempts f 0 k)) = S k
  /\ sleepCount (f :: rev (sleptAttempts f 0 k)) = k
  /\ history (f :: rev (sleptAttempts f 0 k)) = retryHistory f 0 (S k).
Proof.
  intros Hf. rewrite <- rev_retryHistory_last. unfold history.
  rewrite fetchCount_rev, sleepCount_rev, rev_involutive.
  destruct f as [u i t|ms]; [|discriminate].
  rewrite fetchCount_retryHistory, sleepCount_retryHistory. repeat split.
Qed.

(** X1: retriable failures followed by a success within the budget: the
    client sleeps after each failure and returns the parsed body of the
    first successful response unchanged. *)
Theorem retry_then_success env request options key k r data :
  GROQ_API_KEY env = Some key -> key <> [] ->
  Z.of_nat k <= maxRetriesOf options ->
  (forall j, (j < k)%nat ->
     exists g, classifiedFailure (timeoutMsOf options) (fetch env j) = Some g
               /\ retriable g = true) ->
  fetch env k = FetchResolves r -> res_ok r = true ->
  res_json r = BodyJson data -> invalidShape data = false ->
  let res := run (createGroqChatCompletion env request options) in
  fst res = Ok data
  /\ fetchCount (snd res) = S k
  /\ sleepCount (snd res) = k
  /\ history (snd res) = retryHistory (fetchEvent key request options) 0 (S k).
Proof.
  intros Hkey Hne Hk Hall Hf Hok Hj Hs. cbv zeta.
  destruct (client_after_retries env request options key k Hkey Hne Hk Hall)
    as (e' & -> & Hcount).
  rewrite (retryLoop_success _ _ _ _ _ _ e' _ r data Hk); try assumption;
    [|rewrite Hcount; exact Hf].
  cbn [fst snd]. split; [reflexivity|]. apply counts_of_run. reflexivity.
Qed.

Lemma retry_then_success_witness :
  let res := run (createGroqChatCompletion flakyEnv someRequest None) in
  fst res = Ok (completionWith (js "hello"))
  /\ fetchCount (snd res) = 3%nat
  /\ sleepCount (snd res) = 2%nat.
Proof.
  destruct (retry_then_success flakyEnv someRequest None (js "gsk_test") 2
              {| res_status := 200; res_json := BodyJson (completionWith (js "hello")) |}
              (completionWith (js "hello")))
    as (H1 & H2 & H3 & _);
    [ reflexivity | discriminate
    | unfold maxRetriesOf, DEFAULT_MAX_RETRIES; lia
    | intros [|[|j]] Hj; [| |lia];
        exists (classifyHttpError 503 JNull); split; reflexivity
    | reflexivity | reflexivity | reflexivity | reflexivity | ].
  split; [exact H1|]. split; [exact H2|exact H3].
Defined.

(** X2: retriable failures followed by a failure that is not retriable: the
    client stops at once and throws that error, whatever budget is left. *)
Theorem retry_then_rejected env request options key k g :
  GROQ_API_KEY env = Some key -> key <> [] ->
  Z.of_nat k <= maxRetriesOf options ->
  (forall j, (j < k)%nat ->
     exists g', classifiedFailure (timeoutMsOf options) (fetch env j) = Some g'
                /\ retriable g' = true) ->
  classifiedFailure (timeoutMsOf options) (fetch env k) = Some g ->
  retriable g = false ->
  let res := run (createGroqChatCompletion env request options) in
  fst res = Throw (ThrowGroq g)
  /\ fetchCount (snd res) = S k
  /\ sleepCount (snd res) = k
  /\ history (snd res) = retryHistory (fetchEvent key request options) 0 (S k).
Proof.
  intros Hkey Hne Hk Hall Hg Hr. cbv zeta.
  destruct (client_after_retries env request options key k Hkey Hne Hk Hall)
    as (e' & -> & Hcount).
  rewrite (retryLoop_not_retriable _ _ _ _ _ _ e' _ g Hk); try assumption;
    [|rewrite Hcount; exact Hg].
  cbn [fst snd]. split; [reflexivity|]. apply counts_of_run. reflexivity.
Qed.

Lemma retry_then_rejected_witness :
  let res := run (createGroqChatCompletion throttledThenBadEnv someRequest (withRetries 7)) in
  fst res = Throw (ThrowGroq (classifyHttpError 400 JNull))
  /\ fetchCount (snd res) = 2%nat
  /\ sleepCount (snd res) = 1%nat.
Proof.
  destruct (retry_then_rejected throttledThenBadEnv someRequest (withRetries 7)
              (js "gsk_test") 1 (classifyHttpError 400 JNull))
    as (H1 & H2 & H3 & _);
    [ reflexivity | discriminate
    | cbn; lia
    | intros [|j] Hj; [|lia];
        exists (classifyHttpError 429 JNull); split; reflexivity
    | reflexivity | reflexivity | ].
  split; [exact H1|]. split; [exact H2|exact H3].
Defined.

(** X3: with a credential and a negative retry budget the client makes no
    call of [fetch] at all and throws an UNKNOWN error, not retriable, with
    the message "Unknown Groq error". *)
Theorem negative_budget_no_attempt env request options :
  configured env ->
  maxRetriesOf options < 0 ->
  exists g,
    run (createGroqChatCompletion env request options) = (Throw (ThrowGroq g), [])
    /\ type g = UNKNOWN /\ retriable g = false
    /\ message g = js "Unknown Groq error".
Proof.
  intros (c & key & Hkey) Hneg. unfold run.
  rewrite (createGroqChatCompletion_configured _ _ _ _ _ _ Hkey).
  apply retryLoop_negative_budget. exact Hneg.
Qed.

Lemma negative_budget_no_attempt_witness :
  exists g,
    run (createGroqChatCompletion bitcoinEnv someRequest (withRetries (-1)))
      = (Throw (ThrowGroq g), [])
    /\ type g = UNKNOWN /\ retriable g = false
    /\ message g = js "Unknown Groq error".
Proof.
  apply (negative_budget_no_attempt bitcoinEnv someRequest (withRetries (-1))).
  - exists 103%N, (tail (js "gsk_test")). reflexivity.
  - cbn. lia.
Defined.

(** X4: a response with a success status whose body cannot be parsed is
    not retried, even after retriable failures and with budget left: the
    client throws an UNKNOWN error, not retriable, whose message is the one
    of the parse error. *)
Theorem unreadable_body_not_retried env request options key k r m :
  GROQ_API_KEY env = Some key -> key <> [] ->
  Z.of_nat k <= maxRetriesOf options ->
  (forall j, (j < k)%nat ->
     exists g, classifiedFailure (timeoutMsOf options) (fetch env j) = Some g
               /\ retriable g = true) ->
  fetch env k = FetchResolves r -> res_ok r = true ->
  res_json r = BodyRejects (ForeignError m) ->
  let res := run (createGroqChatCompletion env request options) in
  (exists g, fst res = Throw (ThrowGroq g)
             /\ type g = UNKNOWN /\ retriable g = false /\ message g = m)
  /\ fetchCount (snd res) = S k
  /\ sleepCount (snd res) = k.
Proof.
  intros Hkey Hne Hk Hall Hf Hok Hj. cbv zeta.
  destruct (client_after_retries env request options key k Hkey Hne Hk Hall)
    as (e' & -> & Hcount).
  destruct (retryLoop_unreadable env completionsUrl (requestInit key (requestBody request))
              (timeoutMsOf options) (maxRetriesOf options) (Z.of_nat k) e'
              (rev (sleptAttempts (fetchEvent key request options) 0 k)) r
              (ForeignError m) Hk)
    as (g & -> & Hty & Hre & Hmsg); try assumption; [rewrite Hcount; exact Hf|].
  cbn [fst snd]. split; [exists g; auto|].
  destruct (counts_of_run (fetchEvent key request options) k eq_refl) as (H1 & H2 & _).
  split; assumption.
Qed.

Lemma unreadable_body_not_retried_witness :
  let res := run (createGroqChatCompletion garbledEnv someRequest None) in
  (exists g, fst res = Throw (ThrowGroq g)
             /\ type g = UNKNOWN /\ retriable g = false
             /\ message g = js "Unexpected token")
  /\ fetchCount (snd res) = 1%nat
  /\ sleepCount (snd res) = 0%nat.
Proof.
  apply (unreadable_body_not_retried garbledEnv someRequest None (js "gsk_test") 0
           {| res_status := 200;
              res_json := BodyRejects (ForeignError (js "Unexpected token")) |}
           (js "Unexpected token"));
    [ reflexivity | discriminate
    | unfold maxRetriesOf, DEFAULT_MAX_RETRIES; lia
    | intros j Hj; lia
    | reflexivity | reflexivity | reflexivity ].
Defined.

Lemma invalidShape_false_hasChoices data :
  invalidShape data = false -> hasChoices data.
Proof.
  unfold invalidShape, hasChoices, hasProp, isArray.
  destruct data as [| b | n | s | items | fields];
    try (cbn; discriminate); try (destruct b; discriminate);
    try (cbn; destruct (n =? 0); discriminate); try (destruct s; discriminate).
  cbn [falsy typeofObject negb orb getProp].
  destruct (lookupField (js "choices") fields) as [[|b|n|s|items|fs]|] eqn:H;
    try discriminate.
  intros _. exists fields, items. split; [reflexivity|exact H].
Qed.

Lemma completion_shape env request options l data l' :
  createGroqChatCompletion env request options l = (Ok data, l') ->
  invalidShape data = false.
Proof.
  destruct (key_cases env) as [Hno|(c & k & Hkey)].
  - rewrite createGroqChatCompletion_unconfigured by exact Hno. discriminate.
  - rewrite (createGroqChatCompletion_configured _ _ _ _ _ _ Hkey).
    intros H. eapply retryLoop_returns; [reflexivity|exact H].
Qed.

(** X5: whatever the client returns has passed the shape test: it is an
    object whose [choices] field holds an array. *)
Theorem completion_has_choices env request options l data l' :
  createGroqChatCompletion env request options l = (Ok data, l') ->
  hasChoices data.
Proof.
  intros H. apply invalidShape_false_hasChoices.
  exact (completion_shape env request options l data l' H).
Qed.

Lemma completion_has_choices_witness :
  hasChoices (completionWith (js "Bitcoin is *digital* **gold**")).
Proof.
  apply (completion_has_choices bitcoinEnv someRequest None []
           (completionWith (js "Bitcoin is *digital* **gold**"))
           (snd (run (createGroqChatCompletion bitcoinEnv someRequest None)))).
  reflexivity.
Defined.

Lemma In_retryHistory f i n e :
  In e (retryHistory f i n) -> e = f \/ isFetch e = false.
Proof.
  revert i. induction n as [|[|n] IH]; intros i.
  - intros [].
  - intros [<-|[]]. left; reflexivity.
  - rewrite retryHistory_step. intros [<-|[<-|H]].
    + left; reflexivity.
    + right; reflexivity.
    + exact (IH (S i) H).
Qed.

Lemma client_fetch_events env request options key e :
  GROQ_API_KEY env = Some key ->
  In e (snd (run (createGroqChatCompletion env request options))) ->
  isFetch e = true ->
  e = fetchEvent key request options.
Proof.
  intros Hkey. unfold run. destruct key as [|c key].
  - rewrite createGroqChatCompletion_unconfigured by (right; exact Hkey). intros [].
  - rewrite (createGroqChatCompletion_configured _ _ _ _ _ _ Hkey).
    destruct (retryLoop env completionsUrl (requestInit (c :: key) (requestBody request))
                (timeoutMsOf options) (maxRetriesOf options) 0 None []) as [r l'] eqn:H.
    eapply retryLoop_history in H; [|reflexivity|lia].
    destruct H as (n & -> & _). rewrite app_nil_r. cbn [snd].
    intros Hin Hf. apply in_rev in Hin. apply In_retryHistory in Hin.
    destruct Hin as [->|Hin]; [reflexivity|congruence].
Qed.

(** X6: every call of [fetch] of one run of the client is made with the
    same arguments: the completions URL, the method POST, the credential as
    bearer token, the timeout of the options, and the one request body built
    before the loop, in which [stream] is false and the model is the one of
    the request or else the default model. *)
Theorem same_request_every_attempt env request options key e :
  GROQ_API_KEY env = Some key ->
  In e (snd (run (createGroqChatCompletion env request options))) ->
  isFetch e = true ->
  e = EFetch (GROQ_API_BASE_URL ++ js "/chat/completions")
        {| init_method := js "POST";
           init_authorization := js "Bearer " ++ key;
           init_contentType := js "application/json";
           init_body :=
             {| model := match arg_model request with
                         | Some m => m
                         | None => GROQ_MODEL
                         end;
                messages := arg_messages request;
                temperature := arg_temperature request;
                top_p := arg_top_p request;
                max_tokens := arg_max_tokens request;
                stream := false |} |}
        (timeoutMsOf options).
Proof.
  intros Hkey Hin Hf.
  exact (client_fetch_events env request options key e Hkey Hin Hf).
Qed.

Lemma same_request_every_attempt_witness :
  forallb (fun e => match e with
                    | EFetch _ i _ =>
                        JsString.eqb (init_authorization i) (js "Bearer gsk_test")
                        && negb (stream (init_body i))
                    | ESleep _ => true
                    end)
          (snd (run (createGroqChatCompletion unavailableEnv someRequest None))) = true.
Proof.
  apply forallb_forall. intros e Hin.
  destruct e as [u i t|ms] eqn:He; [|reflexivity].
  rewrite <- He in Hin.
  pose proof (same_request_every_attempt unavailableEnv someRequest None (js "gsk_test") e
                eq_refl Hin) as H.
  rewrite He in H. specialize (H eq_refl). injection H as _ -> _. reflexivity.
Defined.

(** X7: for a retry budget that is not negative, one call of the client
    sleeps at most [maxRetries] times and at most 1000 ms each time. *)
Theorem backoff_budget env request options :
  0 <= maxRetriesOf options ->
  let l := snd (run (createGroqChatCompletion env request options)) in
  Z.of_nat (sleepCount l) <= maxRetriesOf options
  /\ 0 <= sleepTotal l <= 1000 * maxRetriesOf options.
Proof.
  intros Hpos. cbv zeta.
  destruct (run_history env request options) as (f & k & Hf & -> & _ & Hk).
  destruct f as [u i t|ms]; [|discriminate].
  rewrite sleepCount_rev, sleepTotal_rev, sleepCount_retryHistory.
  pose proof (sleepTotal_retryHistory u i t 0 k). lia.
Qed.

Lemma backoff_budget_witness :
  let l := snd (run (createGroqChatCompletion unavailableEnv someRequest None)) in
  Z.of_nat (sleepCount l) <= 2 /\ 0 <= sleepTotal l <= 2000.
Proof.
  apply (backoff_budget unavailableEnv someRequest None).
  unfold maxRetriesOf, DEFAULT_MAX_RETRIES. lia.
Defined.

(** X8: from attempt 0 on, the backoff never shrinks from one attempt to
    a later one and stays between 250 ms and 1000 ms. *)
Theorem backoff_monotone a b :
  0 <= a -> a <= b ->
  250 <= backoffMs a /\ backoffMs a <= backoffMs b /\ backoffMs b <= 1000.
Proof.
  intros Ha Hab.
  rewrite <- (Z2Nat.id a), <- (Z2Nat.id b), !backoffMs_schedule by lia.
  assert (Hn : (Z.to_nat a <= Z.to_nat b)%nat) by lia.
  destruct (Z.to_nat a) as [|[|i]], (Z.to_nat b) as [|[|j]]; cbn; lia.
Qed.

Lemma backoff_monotone_witness :
  250 <= backoffMs 1 /\ backoffMs 1 <= backoffMs 7 /\ backoffMs 7 <= 1000.
Proof. apply backoff_monotone; lia. Defined.

(** ** The sanitisation of the answer *)

Lemma trimStart_head s :
  match JsString.trimStart s with
  | [] => True
  | c :: _ => JsString.isTrimmable c = false
  end.
Proof.
  induction s as [|c s IH]; [exact I|].
  cbn [JsString.trimStart]. destruct (JsString.isTrimmable c) eqn:Hc; [exact IH|exact Hc].
Qed.

Lemma trimStart_fixed s :
  match s with
  | [] => True
  | c :: _ => JsString.isTrimmable c = false
  end ->
  JsString.trimStart s = s.
Proof.
  destruct s as [|c s]; [reflexivity|]. cbn [JsString.trimStart]. intros ->. reflexivity.
Qed.

Lemma trimStart_suffix s : exists w, s = w ++ JsString.trimStart s.
Proof.
  induction s as [|c s [w IH]]; [exists []; reflexivity|].
  cbn [JsString.trimStart]. destruct (JsString.isTrimmable c).
  - exists (c :: w). cbn [app]. f_equal. exact IH.
  - exists []. reflexivity.
Qed.

Lemma trim_trimmed s : trimmed (JsString.trim s).
Proof.
  unfold trimmed, JsString.trim, JsString.trimEnd.
  set (t := JsString.trimStart s).
  pose proof (trimStart_head s) as Ht. fold t in Ht.
  pose proof (trimStart_head (rev t)) as Hu.
  destruct (trimStart_suffix (rev t)) as [w Hw].
  set (u := JsString.trimStart (rev t)) in *.
  split; [|rewrite rev_involutive; exact Hu].
  assert (Ht' : t = rev u ++ rev w).
  { rewrite <- (rev_involutive t), Hw, rev_app_distr. reflexivity. }
  destruct (rev u) as [|c x]; [exact I|].
  rewrite Ht' in Ht. exact Ht.
Qed.

Lemma trim_fixed s : trimmed s -> JsString.trim s = s.
Proof.
  intros [Hhead Hlast]. unfold JsString.trim, JsString.trimEnd.
  rewrite (trimStart_fixed s Hhead), (trimStart_fixed (rev s) Hlast).
  apply rev_involutive.
Qed.

Lemma In_trimStart c s : In c (JsString.trimStart s) -> In c s.
Proof.
  destruct (trimStart_suffix s) as [w Hw]. intros H.
  rewrite Hw. apply in_or_app. right. exact H.
Qed.

Lemma In_trim c s : In c (JsString.trim s) -> In c s.
Proof.
  unfold JsString.trim, JsString.trimEnd. intros H.
  apply in_rev in H. apply In_trimStart in H. apply in_rev in H.
  apply In_trimStart. exact H.
Qed.

Lemma starsToBullets_starFree s : starFree (JsString.starsToBullets s).
Proof.
  unfold starFree, JsString.starsToBullets. intros H.
  apply in_map_iff in H. destruct H as (c & Hc & _).
  destruct (N.eqb_spec c JsString.star) as [Heq|Hne]; [discriminate Hc|].
  apply Hne. exact Hc.
Qed.

Lemma starFree_cons c s : starFree (c :: s) -> c <> JsString.star /\ starFree s.
Proof.
  unfold starFree. intros H. split.
  - intros ->. apply H. left. reflexivity.
  - intros Hin. apply H. right. exact Hin.
Qed.

Lemma removeDoubleStars_starFree s : starFree s -> JsString.removeDoubleStars s = s.
Proof.
  induction s as [|c s IH]; [reflexivity|].
  intros H. apply starFree_cons in H. destruct H as [Hc Hs].
  cbn [JsString.removeDoubleStars]. destruct s as [|d s']; [reflexivity|].
  destruct (N.eqb_spec c JsString.star) as [Heq|_]; [contradiction|].
  cbn [andb]. f_equal. apply IH. exact Hs.
Qed.

Lemma starsToBullets_starFree_id s : starFree s -> JsString.starsToBullets s = s.
Proof.
  induction s as [|c s IH]; [reflexivity|].
  intros H. apply starFree_cons in H. destruct H as [Hc Hs].
  unfold JsString.starsToBullets in *. cbn [map].
  destruct (N.eqb_spec c JsString.star) as [Heq|_]; [contradiction|].
  f_equal. apply IH. exact Hs.
Qed.

Lemma cleanResponse_clean s : starFree (cleanResponse s) /\ trimmed (cleanResponse s).
Proof.
  unfold cleanResponse. split; [|apply trim_trimmed].
  intros H. apply In_trim in H. exact (starsToBullets_starFree _ H).
Qed.

Lemma cleanResponse_of_clean s : starFree s -> trimmed s -> cleanResponse s = s.
Proof.
  intros Hs Ht. unfold cleanResponse.
  rewrite (removeDoubleStars_starFree s Hs), (starsToBullets_starFree_id s Hs).
  apply trim_fixed. exact Ht.
Qed.

(** X9: cleaning an answer twice gives what cleaning it once gives. *)
Theorem cleanResponse_idempotent s :
  cleanResponse (cleanResponse s) = cleanResponse s.
Proof.
  destruct (cleanResponse_clean s) as [Hs Ht].
  apply cleanResponse_of_clean; assumption.
Qed.

(** X10: the cleaning leaves a text as it is exactly when the text holds
    no asterisk and has no blank at either end. *)
Theorem cleanResponse_fixed_iff s :
  cleanResponse s = s <-> starFree s /\ trimmed s.
Proof.
  split.
  - intros H. rewrite <- H. apply cleanResponse_clean.
  - intros [Hs Ht]. apply cleanResponse_of_clean; assumption.
Qed.

(** ** Further properties of the orchestrator and of the endpoint *)

Lemma generateGroqResponse_log env prompt l :
  snd (generateGroqResponse env prompt l) =
  snd (createGroqChatCompletion env (chatRequest prompt) None l).
Proof.
  pose proof (generateGroqResponse_cases env prompt l) as H.
  destruct (createGroqChatCompletion env (chatRequest prompt) None l) as [[completion|t] l'].
  - destruct (falsy (extractText completion)); [rewrite H; reflexivity|].
    destruct (extractText completion);
      try (destruct H as (m & ->); reflexivity); rewrite H; reflexivity.
  - rewrite H. reflexivity.
Qed.

(** X11: an answer the orchestrator returns is the trimmed content of the
    first choice of a well-shaped completion; that content is a string that
    is not empty, and the answer has no blank at either end. *)
Theorem answer_is_trimmed_content env prompt l text l' :
  generateGroqResponse env prompt l = (Ok text, l') ->
  exists completion s,
    createGroqChatCompletion env (chatRequest prompt) None l = (Ok completion, l')
    /\ hasChoices completion
    /\ extractText completion = JStr s
    /\ s <> []
    /\ text = JsString.trim s
    /\ trimmed text.
Proof.
  pose proof (generateGroqResponse_cases env prompt l) as H.
  destruct (createGroqChatCompletion env (chatRequest prompt) None l)
    as [[completion|t] l0] eqn:Hc.
  - destruct (falsy (extractText completion)) eqn:Hf; [rewrite H; discriminate|].
    destruct (extractText completion) as [|b|n|s|items|fields] eqn:He;
      try (destruct H as (m & ->); discriminate).
    rewrite H. intros [= <- <-]. exists completion, s.
    split; [reflexivity|].
    split; [apply invalidShape_false_hasChoices;
            exact (completion_shape env (chatRequest prompt) None l completion l0 Hc)|].
    split; [exact He|].
    split; [intros ->; discriminate Hf|].
    split; [reflexivity|apply trim_trimmed].
  - rewrite H. discriminate.
Qed.

Lemma answer_is_trimmed_content_witness :
  exists completion s,
    createGroqChatCompletion bitcoinEnv (chatRequest (js "hi")) None [] =
      (Ok completion, snd (run (generateGroqResponse bitcoinEnv (js "hi"))))
    /\ hasChoices completion
    /\ extractText completion = JStr s
    /\ s <> []
    /\ js "Bitcoin is *digital* **gold**" = JsString.trim s
    /\ trimmed (js "Bitcoin is *digital* **gold**").
Proof.
  apply (answer_is_trimmed_content bitcoinEnv (js "hi") []). reflexivity.
Defined.

Lemma POST_log env req :
  snd (run (POST env req)) =
  match req with
  | BodyObject (Some (c :: m)) =>
      snd (run (createGroqChatCompletion env (chatRequest (PROMPT_PREFIX ++ c :: m)) None))
  | BodyUntyped v (ConvertsTo shown) =>
      if falsy v then []
      else snd (run (createGroqChatCompletion env (chatRequest (PROMPT_PREFIX ++ shown)) None))
  | _ => []
  end.
Proof.
  unfold run. rewrite POST_cases.
  destruct req as [e|[[|c m]|]|v [shown|typeError]]; try reflexivity.
  - rewrite <- generateGroqResponse_log.
    destruct (generateGroqResponse env (PROMPT_PREFIX ++ c :: m) []) as [[text|t] l'];
      reflexivity.
  - destruct (falsy v); [reflexivity|].
    rewrite <- generateGroqResponse_log.
    destruct (generateGroqResponse env (PROMPT_PREFIX ++ shown) []) as [[text|t] l'];
      reflexivity.
  - destruct (falsy v); reflexivity.
Qed.

(** X12: the endpoint never throws: every request gets a response, its
    status is 200, 400, 500 or 503, and the response carries an answer
    text exactly when the status is 200 (otherwise an error text). *)
Theorem POST_always_replies env req l :
  exists resp l',
    POST env req l = (Ok resp, l')
    /\ (http_status resp = 200 \/ http_status resp = 400
        \/ http_status resp = 500 \/ http_status resp = 503)
    /\ ((exists text, http_payload resp = PayloadResponse text)
        <-> http_status resp = 200).
Proof.
  assert (Hfix : forall resp : HttpResponse,
             (http_status resp = 400 \/ http_status resp = 500) ->
             (exists e, http_payload resp = PayloadError e) ->
             (http_status resp = 200 \/ http_status resp = 400
              \/ http_status resp = 500 \/ http_status resp = 503)
             /\ ((exists text, http_payload resp = PayloadResponse text)
                 <-> http_status resp = 200)).
  { intros resp Hst (e & He). split; [destruct Hst as [->| ->]; auto|].
    rewrite He. split; [intros (text & H); discriminate H|].
    destruct Hst as [->| ->]; discriminate. }
  assert (Hvia : forall r : Outcome jsstring * Log,
             exists resp l',
               match r with
               | (Ok text, l0) =>
                   (Ok {| http_payload := PayloadResponse (cleanResponse text);
                          http_status := 200 |}, l0)
               | (Throw t, l0) =>
                   (Ok {| http_payload := PayloadError (errorMessage t);
                          http_status := errorStatus t |}, l0)
               end = (Ok resp, l')
               /\ (http_status resp = 200 \/ http_status resp = 400
                   \/ http_status resp = 500 \/ http_status resp = 503)
               /\ ((exists text, http_payload resp = PayloadResponse text)
                   <-> http_status resp = 200)).
  { intros [[text|t] l0].
    - eexists _, _. split; [reflexivity|]. cbn. split; [auto|].
      split; [reflexivity|]. intros _. eexists. reflexivity.
    - eexists _, _. split; [reflexivity|]. cbn [http_status http_payload].
      split.
      + destruct t as [g|e]; cbn; [destruct (type g)|]; auto.
      + split; [intros (text & H); discriminate H|].
        destruct t as [g|e]; cbn; [destruct (type g)|]; discriminate. }
  rewrite POST_cases. destruct req as [e|[[|c m]|]|v [shown|typeError]].
  - eexists _, _. split; [reflexivity|]. apply Hfix; cbn; eauto.
  - eexists _, _. split; [reflexivity|]. apply Hfix; cbn; eauto.
  - apply Hvia.
  - eexists _, _. split; [reflexivity|]. apply Hfix; cbn; eauto.
  - destruct (falsy v); [|apply Hvia].
    eexists _, _. split; [reflexivity|]. apply Hfix; cbn; eauto.
  - destruct (falsy v); eexists _, _; (split; [reflexivity|]); apply Hfix; cbn; eauto.
Qed.

(** X13: the answer text of a response of the endpoint holds no asterisk
    and has no blank at either end. *)
Theorem reply_is_clean env req l resp l' text :
  POST env req l = (Ok resp, l') ->
  http_payload resp = PayloadResponse text ->
  starFree text /\ trimmed text.
Proof.
  rewrite POST_cases. destruct req as [e|[[|c m]|]|v [shown|typeError]].
  - intros [= <- _]. discriminate.
  - intros [= <- _]. discriminate.
  - destruct (generateGroqResponse env (PROMPT_PREFIX ++ c :: m) l) as [[answer|t] l0].
    + intros [= <- _]. cbn. intros [= <-]. apply cleanResponse_clean.
    + intros [= <- _]. discriminate.
  - intros [= <- _]. discriminate.
  - destruct (falsy v); [intros [= <- _]; discriminate|].
    destruct (generateGroqResponse env (PROMPT_PREFIX ++ shown) l) as [[answer|t] l0].
    + intros [= <- _]. cbn. intros [= <-]. apply cleanResponse_clean.
    + intros [= <- _]. discriminate.
  - destruct (falsy v); intros [= <- _]; discriminate.
Qed.

Lemma reply_is_clean_witness :
  starFree bitcoinCleaned /\ trimmed bitcoinCleaned.
Proof.
  apply (reply_is_clean bitcoinEnv bitcoinRequest []
           {| http_payload := PayloadResponse bitcoinCleaned; http_status := 200 |}
           (snd (run (POST bitcoinEnv bitcoinRequest)))); reflexivity.
Defined.

(** X14: handling one request costs at most 3 calls of [fetch] and at most
    2 backoff sleeps, 750 ms of backoff in all. *)
Theorem POST_cost_bound env req :
  let l := snd (run (POST env req)) in
  (fetchCount l <= 3)%nat /\ (sleepCount l <= 2)%nat /\ 0 <= sleepTotal l <= 750.
Proof.
  cbv zeta. rewrite POST_log.
  assert (Hrun : forall prompt,
             let l := snd (run (createGroqChatCompletion env (chatRequest prompt) None)) in
             (fetchCount l <= 3)%nat /\ (sleepCount l <= 2)%nat
             /\ 0 <= sleepTotal l <= 750).
  { intros prompt. cbv zeta.
    destruct (run_history env (chatRequest prompt) None) as (f & k & Hf & -> & _ & Hk).
    destruct f as [u i t|ms]; [|discriminate].
    rewrite fetchCount_rev, sleepCount_rev, sleepTotal_rev,
      fetchCount_retryHistory, sleepCount_retryHistory.
    unfold maxRetriesOf, DEFAULT_MAX_RETRIES in Hk.
    destruct k as [|[|[|[|k]]]]; cbn; lia. }
  destruct req as [e|[[|c m]|]|v [shown|typeError]]; try (cbn; lia).
  - apply Hrun.
  - destruct (falsy v); [cbn; lia|apply Hrun].
Qed.

(** X15: without a credential every message that is not empty is answered
    with status 500 and the text "GROQ_API_KEY is not configured", and no
    call of [fetch] is made. *)
Theorem POST_without_credential env c m :
  GROQ_API_KEY env = None \/ GROQ_API_KEY env = Some [] ->
  run (POST env (BodyObject (Some (c :: m)))) =
  (Ok {| http_payload := PayloadError (js "GROQ_API_KEY is not configured");
         http_status := 500 |}, []).
Proof.
  intros H. unfold run. rewrite POST_cases.
  rewrite generateGroqResponse_unconfigured by exact H. reflexivity.
Qed.

Lemma POST_without_credential_witness :
  run (POST noKeyEnv (BodyObject (Some (js "hi")))) =
  (Ok {| http_payload := PayloadError (js "GROQ_API_KEY is not configured");
         http_status := 500 |}, []).
Proof.
  apply (POST_without_credential noKeyEnv 104%N (js "i")). left. reflexivity.
Defined.

(** X16: when the content of the first choice is neither absent, nor
    falsy, nor a string (a number, [true], an array or an object), the
    orchestrator throws an error that is not a classified one and the
    endpoint answers 500. *)
Theorem non_string_content_is_500 env c m completion l :
  run (createGroqChatCompletion env (chatRequest (PROMPT_PREFIX ++ c :: m)) None)
    = (Ok completion, l) ->
  falsy (extractText completion) = false ->
  (forall s, extractText completion <> JStr s) ->
  (exists e, run (generateGroqResponse env (PROMPT_PREFIX ++ c :: m))
             = (Throw (ThrowForeign e), l))
  /\ exists resp,
      run (POST env (BodyObject (Some (c :: m)))) = (Ok resp, l)
      /\ http_status resp = 500.
Proof.
  unfold run. intros Hc Hf Hns.
  pose proof (generateGroqResponse_cases env (PROMPT_PREFIX ++ c :: m) []) as H.
  rewrite Hc, Hf in H. rewrite POST_cases.
  destruct (extractText completion) as [|b|n|s|items|fields];
    try (destruct H as (msg & ->); split; [eexists; reflexivity|];
         eexists; split; reflexivity).
  exfalso. exact (Hns s eq_refl).
Qed.

Lemma non_string_content_is_500_witness :
  exists resp,
    fst (run (POST numberEnv (BodyObject (Some (js "hi"))))) = Ok resp
    /\ http_status resp = 500.
Proof.
  destruct (non_string_content_is_500 numberEnv 104%N (js "i")
              (JObj [(js "choices",
                      JArr [JObj [(js "message", JObj [(js "content", JNum 42)])]])])
              (snd (run (createGroqChatCompletion numberEnv
                           (chatRequest (PROMPT_PREFIX ++ js "hi")) None))))
    as (_ & resp & Hrun & Hst).
  - reflexivity.
  - reflexivity.
  - intros s. discriminate.
  - exists resp. split; [exact (f_equal fst Hrun)|exact Hst].
Defined.

(** X17: a message that is not empty reaches the upstream unchanged, at the
    end of the user message and after the fixed framing sentence; the
    conversation sent has exactly two messages, the system instruction
    first, and asks for the default model with temperature 0, top_p 1 and
    at most 1024 tokens, under the default timeout. *)
Theorem message_forwarded env key c m e :
  GROQ_API_KEY env = Some key ->
  In e (snd (run (POST env (BodyObject (Some (c :: m)))))) ->
  isFetch e = true ->
  e = EFetch completionsUrl
        (requestInit key
           {| model := GROQ_MODEL;
              messages := [ {| role := system; content := SYSTEM_PROMPT |};
                            {| role := user; content := PROMPT_PREFIX ++ c :: m |} ];
              temperature := 0;
              top_p := 1;
              max_tokens := 1024;
              stream := false |})
        DEFAULT_TIMEOUT_MS.
Proof.
  intros Hkey. rewrite POST_log. intros Hin Hf.
  exact (client_fetch_events env (chatRequest (PROMPT_PREFIX ++ c :: m)) None key e
           Hkey Hin Hf).
Qed.

Lemma message_forwarded_witness :
  forallb (fun e => match e with
                    | EFetch _ i _ =>
                        match messages (init_body i) with
                        | [s; u] =>
                            JsString.eqb (content u) (PROMPT_PREFIX ++ js "What is Bitcoin?")
                        | _ => false
                        end
                    | ESleep _ => true
                    end)
          (snd (run (POST bitcoinEnv bitcoinRequest))) = true.
Proof.
  apply forallb_forall. intros e Hin.
  destruct e as [u i t|ms] eqn:He; [|reflexivity].
  rewrite <- He in Hin.
  pose proof (message_forwarded bitcoinEnv (js "gsk_test") 87%N (js "hat is Bitcoin?") e
                eq_refl Hin) as H.
  rewrite He in H. specialize (H eq_refl). injection H as _ -> _. reflexivity.
Defined.

(** ** The navigation links *)

Lemma JsString_eqb_eq a b : JsString.eqb a b = true <-> a = b.
Proof.
  revert b. induction a as [|x a IH]; intros [|y b]; cbn [JsString.eqb];
    try (split; [discriminate|discriminate]); [split; reflexivity|].
  rewrite andb_true_iff, N.eqb_eq, IH. split.
  - intros [-> ->]. reflexivity.
  - intros [= -> ->]. split; reflexivity.
Qed.

Lemma JsString_eqb_refl a : JsString.eqb a a = true.
Proof. apply JsString_eqb_eq. reflexivity. Qed.

Lemma JsString_eqb_longer a c rest : JsString.eqb (a ++ c :: rest) a = false.
Proof.
  destruct (JsString.eqb (a ++ c :: rest) a) eqn:H; [|reflexivity].
  apply JsString_eqb_eq in H. apply (f_equal (@List.length N)) in H.
  rewrite length_app in H. cbn [List.length] in H. lia.
Qed.

Lemma startsWith_app p rest : startsWith (p ++ rest) p = true.
Proof.
  induction p as [|x p IH]; [reflexivity|].
  cbn [app startsWith]. rewrite N.eqb_refl. exact IH.
Qed.

Lemma startsWith_app_mismatch p c d rest tail :
  c <> d -> startsWith (p ++ c :: rest) (p ++ d :: tail) = false.
Proof.
  intros Hcd. induction p as [|x p IH].
  - cbn [app startsWith]. destruct (N.eqb_spec c d); [contradiction|reflexivity].
  - cbn [app startsWith]. rewrite N.eqb_refl. exact IH.
Qed.

(** X18: on every page at most one navigation link is highlighted. *)
Theorem at_most_one_link_active pathname :
  (List.length (activeLinks pathname) <= 1)%nat.
Proof.
  unfold activeLinks, navLinks, NAV_ITEMS, isActivePath.
  destruct pathname as [|a [|b p]].
  - cbn. lia.
  - cbn. destruct (N.eqb a 47); cbn; lia.
  - cbn.
    destruct (N.eqb a 47); cbn; [|lia].
    destruct (N.eqb_spec b 109) as [->|Hm]; cbn.
    + repeat match goal with
             | |- context [if ?x then _ else _] => destruct x; cbn
             end; lia.
    + destruct (N.eqb_spec b 110) as [->|Hn]; cbn.
      * repeat match goal with
               | |- context [if ?x then _ else _] => destruct x; cbn
               end; lia.
      * destruct (N.eqb_spec b 99) as [->|Hc]; cbn; [|lia].
        repeat match goal with
               | |- context [if ?x then _ else _] => destruct x; cbn
               end; lia.
Qed.

(** X19: a link other than the one of the root is highlighted on its own
    page and on every page below it. *)
Theorem link_active_on_subpaths h rest :
  h <> js "/" ->
  isActivePath h h = true /\ isActivePath (h ++ js "/" ++ rest) h = true.
Proof.
  intros Hh. unfold isActivePath.
  destruct (JsString.eqb h (js "/")) eqn:He;
    [apply JsString_eqb_eq in He; contradiction|].
  rewrite JsString_eqb_refl. split; [reflexivity|].
  rewrite app_assoc, startsWith_app. apply orb_true_r.
Qed.

Lemma link_active_on_subpaths_witness :
  isActivePath (js "/market") (js "/market") = true
  /\ isActivePath (js "/market/btc") (js "/market") = true.
Proof.
  apply (link_active_on_subpaths (js "/market") (js "btc")). discriminate.
Defined.

(** X20: a page whose path merely begins with the text of a link, without
    a slash after it, does not highlight that link. *)
Theorem link_not_active_on_lookalike h c rest :
  h <> js "/" -> c <> 47%N ->
  isActivePath (h ++ c :: rest) h = false.
Proof.
  intros Hh Hc. unfold isActivePath.
  destruct (JsString.eqb h (js "/")) eqn:He;
    [apply JsString_eqb_eq in He; contradiction|].
  rewrite JsString_eqb_longer. cbn [orb].
  apply startsWith_app_mismatch. exact Hc.
Qed.

Lemma link_not_active_on_lookalike_witness :
  isActivePath (js "/marketing") (js "/market") = false.
Proof.
  apply (link_not_active_on_lookalike (js "/market") 105%N (js "ng")); discriminate.
Defined.

(** X21: the link of the root is highlighted on the root page only, although
    every path begins with its text. *)
Theorem root_link_only_on_root pathname :
  isActivePath pathname (js "/") = true <-> pathname = js "/".
Proof.
  unfold isActivePath. rewrite JsString_eqb_refl. apply JsString_eqb_eq.
Qed.

Lemma length_trimStart s : (List.length (JsString.trimStart s) <= List.length s)%nat.
Proof.
  destruct (trimStart_suffix s) as [w Hw]. rewrite Hw at 2. rewrite length_app. lia.
Qed.

Lemma length_trim s : (List.length (JsString.trim s) <= List.length s)%nat.
Proof.
  unfold JsString.trim, JsString.trimEnd. rewrite length_rev.
  pose proof (length_trimStart (rev (JsString.trimStart s))) as H.
  rewrite length_rev in H. pose proof (length_trimStart s). lia.
Qed.

Lemma length_removeDoubleStars s :
  (List.length (JsString.removeDoubleStars s) <= List.length s)%nat
  /\ forall c, (List.length (JsString.removeDoubleStars (c :: s)) <= S (List.length s))%nat.
Proof.
  induction s as [|d s [IH1 IH2]].
  - split; [cbn; lia|intros c; cbn; lia].
  - split; [apply IH2|]. intros c.
    change (JsString.removeDoubleStars (c :: d :: s))
      with (if (N.eqb c JsString.star && N.eqb d JsString.star)%bool
            then JsString.removeDoubleStars s
            else c :: JsString.removeDoubleStars (d :: s)).
    destruct (N.eqb c JsString.star && N.eqb d JsString.star)%bool.
    + cbn [List.length]. lia.
    + specialize (IH2 d). cbn [List.length] in *. lia.
Qed.

(** X22: cleaning never makes an answer longer. *)
Theorem cleanResponse_not_longer s :
  (List.length (cleanResponse s) <= List.length s)%nat.
Proof.
  unfold cleanResponse.
  pose proof (length_trim (JsString.starsToBullets (JsString.removeDoubleStars s))) as H.
  unfold JsString.starsToBullets in *. rewrite length_map in H.
  pose proof (proj1 (length_removeDoubleStars s)). lia.
Qed.

Lemma configured_run_fetches env request :
  configured env ->
  (1 <= fetchCount (snd (run (createGroqChatCompletion env request None))))%nat.
Proof.
  intros (c & k & Hkey). unfold run.
  rewrite (createGroqChatCompletion_configured _ _ _ _ _ _ Hkey).
  destruct (retryLoop env completionsUrl (requestInit (c :: k) (requestBody request))
              (timeoutMsOf None) (maxRetriesOf None) 0 None []) as [r l'] eqn:H.
  eapply retryLoop_history in H; [|reflexivity|lia].
  destruct H as (n & -> & Hn & _). cbn [snd].
  rewrite app_nil_r, fetchCount_rev, fetchCount_retryHistory.
  apply Hn. unfold maxRetriesOf, DEFAULT_MAX_RETRIES. lia.
Qed.

(** X23: a response sent without any call of [fetch] has status 400 or
    500: an answer (200) and a 503 are only sent after the upstream has been
    called. *)
Theorem reply_without_fetch env req :
  fetchCount (snd (run (POST env req))) = 0%nat ->
  exists resp,
    fst (run (POST env req)) = Ok resp
    /\ (http_status resp = 400 \/ http_status resp = 500).
Proof.
  rewrite POST_log.
  change (fst (run (POST env req))) with (fst (POST env req [])).
  rewrite POST_cases.
  assert (Hvia : forall prompt,
             fetchCount (snd (run (createGroqChatCompletion env (chatRequest prompt) None)))
               = 0%nat ->
             exists resp,
               fst match generateGroqResponse env prompt [] with
                   | (Ok text, l') =>
                       (Ok {| http_payload := PayloadResponse (cleanResponse text);
                              http_status := 200 |}, l')
                   | (Throw t, l') =>
                       (Ok {| http_payload := PayloadError (errorMessage t);
                              http_status := errorStatus t |}, l')
                   end = Ok resp
               /\ (http_status resp = 400 \/ http_status resp = 500)).
  { intros prompt H0. destruct (key_cases env) as [Hno|Hyes].
    - rewrite generateGroqResponse_unconfigured by exact Hno.
      eexists. split; [reflexivity|]. right. reflexivity.
    - pose proof (configured_run_fetches env (chatRequest prompt) Hyes). lia. }
  destruct req as [e|[[|c m]|]|v [shown|typeError]];
    try (intros _; eexists; split; [reflexivity|]; cbn; auto).
  - apply Hvia.
  - destruct (falsy v); [intros _; eexists; split; [reflexivity|]; cbn; auto|apply Hvia].
  - destruct (falsy v); intros _; eexists; (split; [reflexivity|]); cbn; auto.
Qed.

Lemma reply_without_fetch_witness :
  exists resp,
    fst (run (POST noKeyEnv (BodyObject (Some (js "hi"))))) = Ok resp
    /\ (http_status resp = 400 \/ http_status resp = 500).
Proof.
  apply (reply_without_fetch noKeyEnv (BodyObject (Some (js "hi")))). reflexivity.
Defined.

(** X24: a response with a success status whose body has not the shape of
    a completion is not retried, even after retriable failures and with
    budget left: the client throws an INVALID_RESPONSE error, not retriable,
    that holds the body it received. *)
Theorem invalid_shape_not_retried env request options key k r data :
  GROQ_API_KEY env = Some key -> key <> [] ->
  Z.of_nat k <= maxRetriesOf options ->
  (forall j, (j < k)%nat ->
     exists g, classifiedFailure (timeoutMsOf options) (fetch env j) = Some g
               /\ retriable g = true) ->
  fetch env k = FetchResolves r -> res_ok r = true ->
  res_json r = BodyJson data -> invalidShape data = true ->
  let res := run (createGroqChatCompletion env request options) in
  (exists g, fst res = Throw (ThrowGroq g)
             /\ type g = INVALID_RESPONSE /\ retriable g = false
             /\ details g = DetailsJson data)
  /\ fetchCount (snd res) = S k
  /\ sleepCount (snd res) = k.
Proof.
  intros Hkey Hne Hk Hall Hf Hok Hj Hs. cbv zeta.
  destruct (client_after_retries env request options key k Hkey Hne Hk Hall)
    as (e' & -> & Hcount).
  destruct (retryLoop_invalid env completionsUrl (requestInit key (requestBody request))
              (timeoutMsOf options) (maxRetriesOf options) (Z.of_nat k) e'
              (rev (sleptAttempts (fetchEvent key request options) 0 k)) r data Hk)
    as (g & -> & Hty & Hre & Hd); try assumption; [rewrite Hcount; exact Hf|].
  cbn [fst snd]. split; [exists g; auto|].
  destruct (counts_of_run (fetchEvent key request options) k eq_refl) as (H1 & H2 & _).
  split; assumption.
Qed.

Lemma invalid_shape_not_retried_witness :
  let res := run (createGroqChatCompletion shapelessEnv someRequest (withRetries 4)) in
  (exists g, fst res = Throw (ThrowGroq g)
             /\ type g = INVALID_RESPONSE /\ retriable g = false
             /\ details g = DetailsJson (JObj [(js "error", JStr (js "overloaded"))]))
  /\ fetchCount (snd res) = 1%nat
  /\ sleepCount (snd res) = 0%nat.
Proof.
  apply (invalid_shape_not_retried shapelessEnv someRequest (withRetries 4) (js "gsk_test") 0
           {| res_status := 200;
              res_json := BodyJson (JObj [(js "error", JStr (js "overloaded"))]) |}
           (JObj [(js "error", JStr (js "overloaded"))]));
    [ reflexivity | discriminate | cbn; lia | intros j Hj; lia
    | reflexivity | reflexivity | reflexivity | reflexivity ].
Defined.
